(** * RotatingSquare: a square that rotates and scales about a corner and
    bounces off the edges of its viewport.

    Shallow embedding of [RotatingSquare/RotatingSquare.js], and of the
    collision code of the second copy of the script.  JavaScript numbers
    are read as exact rationals ([Q]); rounding, NaN and infinities are
    outside the model.  Equality of numbers is [Qeq] ([==]). *)

From Stdlib Require Import QArith Qround Lqa Lia ZArith Bool.
From Stdlib Require Import Ascii String List.
Import ListNotations.
Open Scope Q_scope.
Set Warnings "-abstract-large-number".

(** ** JavaScript numbers and strings *)

Module JS.

(** [x < y] on numbers, as a boolean. *)
Definition ltb (x y : Q) : bool := negb (Qle_bool y x).

(** Truncation toward zero, the rounding of the [%] operator. *)
Definition trunc (q : Q) : Z := Z.quot (Qnum q) (Zpos (Qden q)).

(** [a % n] for a non-zero [n]: the remainder has the sign of [a]. *)
Definition rem (a n : Q) : Q := a - n * inject_Z (trunc (a / n)).

(** [String.fromCharCode(n)]: the code unit [n mod 2^16] as a string; a
    unit above 127 is written as its UTF-8 bytes. *)
Definition fromCharCode (n : nat) : string :=
  let c := (n mod 65536)%nat in
  if (c <? 128)%nat then String (ascii_of_nat c) EmptyString
  else if (c <? 2048)%nat then
    String (ascii_of_nat (192 + c / 64))
      (String (ascii_of_nat (128 + c mod 64)) EmptyString)
  else
    String (ascii_of_nat (224 + c / 4096))
      (String (ascii_of_nat (128 + (c / 64) mod 64))
         (String (ascii_of_nat (128 + c mod 64)) EmptyString)).

(** [Math.PI], [Math.sin] and [Math.cos]: built-ins of the host, taken as
    parameters of the model. *)
Record Math : Type := mkMath {
  PI : Q;
  sin : Q -> Q;
  cos : Q -> Q
}.

End JS.

(** ** The matrix library

    The script uses the classes [Matrix4] and [Vector4] of the matrix
    library the page loads with it (cuon-matrix.js); the library is not
    among the sources.  The operations the script calls are modelled here,
    with exact numbers in place of 32-bit floats. *)

Module Cuon.

(** Modelled from the spec: the [Vector4] class of the matrix library the
    page loads (cuon-matrix.js) is not among the sources.  Its [elements]
    are a [Float32Array] of length 4. *)
Record Vector4 : Type := mkVector4 { v0 : Q; v1 : Q; v2 : Q; v3 : Q }.

(** Modelled from the spec: the [Matrix4] class of the same library, not
    among the sources.  Its [elements] are a [Float32Array] of length 16
    in column-major order: [e0 .. e3] is the first column. *)
Record Matrix4 : Type := mkMatrix4 {
  e0 : Q; e1 : Q; e2 : Q; e3 : Q;
  e4 : Q; e5 : Q; e6 : Q; e7 : Q;
  e8 : Q; e9 : Q; e10 : Q; e11 : Q;
  e12 : Q; e13 : Q; e14 : Q; e15 : Q
}.

(** Modelled from the spec: [new Matrix4()] of the library, the identity. *)
Definition identity : Matrix4 :=
  mkMatrix4 1 0 0 0  0 1 0 0  0 0 1 0  0 0 0 1.

(** Modelled from the spec: [m.setTranslate(x, y, z)] of the library
    overwrites every element with those of the translation. *)
Definition setTranslate (x y z : Q) : Matrix4 :=
  mkMatrix4 1 0 0 0  0 1 0 0  0 0 1 0  x y z 1.

(** Modelled from the spec: [m.setScale(x, y, z)] of the library. *)
Definition setScale (x y z : Q) : Matrix4 :=
  mkMatrix4 x 0 0 0  0 y 0 0  0 0 z 0  0 0 0 1.

(** Modelled from the spec: [m.setRotate(angle, 0, 0, 1)] of the library,
    the rotation by [angle] degrees about the z axis, the only axis the
    program passes. *)
Definition setRotateZ (M : JS.Math) (angle : Q) : Matrix4 :=
  let angle := JS.PI M * angle / 180 in
  let s := JS.sin M angle in
  let c := JS.cos M angle in
  mkMatrix4 c s 0 0  (- s) c 0 0  0 0 1 0  0 0 0 1.

(** Modelled from the spec: [a.concat(b)] of the library, the 4x4 matrix
    product: [a] becomes [a * b]. *)
Definition concat (a b : Matrix4) : Matrix4 :=
  let row (ai0 ai1 ai2 ai3 : Q) (b0 b1 b2 b3 : Q) :=
    ai0 * b0 + ai1 * b1 + ai2 * b2 + ai3 * b3 in
  let r0 := row (e0 a) (e4 a) (e8 a) (e12 a) in
  let r1 := row (e1 a) (e5 a) (e9 a) (e13 a) in
  let r2 := row (e2 a) (e6 a) (e10 a) (e14 a) in
  let r3 := row (e3 a) (e7 a) (e11 a) (e15 a) in
  mkMatrix4
    (r0 (e0 b) (e1 b) (e2 b) (e3 b)) (r1 (e0 b) (e1 b) (e2 b) (e3 b))
    (r2 (e0 b) (e1 b) (e2 b) (e3 b)) (r3 (e0 b) (e1 b) (e2 b) (e3 b))
    (r0 (e4 b) (e5 b) (e6 b) (e7 b)) (r1 (e4 b) (e5 b) (e6 b) (e7 b))
    (r2 (e4 b) (e5 b) (e6 b) (e7 b)) (r3 (e4 b) (e5 b) (e6 b) (e7 b))
    (r0 (e8 b) (e9 b) (e10 b) (e11 b)) (r1 (e8 b) (e9 b) (e10 b) (e11 b))
    (r2 (e8 b) (e9 b) (e10 b) (e11 b)) (r3 (e8 b) (e9 b) (e10 b) (e11 b))
    (r0 (e12 b) (e13 b) (e14 b) (e15 b)) (r1 (e12 b) (e13 b) (e14 b) (e15 b))
    (r2 (e12 b) (e13 b) (e14 b) (e15 b)) (r3 (e12 b) (e13 b) (e14 b) (e15 b)).

(** Modelled from the spec: [multiply] is the library's other name of
    [concat]. *)
Definition multiply : Matrix4 -> Matrix4 -> Matrix4 := concat.

(** Modelled from the spec: [m.scale(x, y, z)] of the library scales the
    first three columns in place. *)
Definition scale (m : Matrix4) (x y z : Q) : Matrix4 :=
  mkMatrix4
    (e0 m * x) (e1 m * x) (e2 m * x) (e3 m * x)
    (e4 m * y) (e5 m * y) (e6 m * y) (e7 m * y)
    (e8 m * z) (e9 m * z) (e10 m * z) (e11 m * z)
    (e12 m) (e13 m) (e14 m) (e15 m).

(** Modelled from the spec: [m.translate(x, y, z)] of the library adds to
    the last column in place. *)
Definition translate (m : Matrix4) (x y z : Q) : Matrix4 :=
  mkMatrix4
    (e0 m) (e1 m) (e2 m) (e3 m)
    (e4 m) (e5 m) (e6 m) (e7 m)
    (e8 m) (e9 m) (e10 m) (e11 m)
    (e12 m + (e0 m * x + e4 m * y + e8 m * z))
    (e13 m + (e1 m * x + e5 m * y + e9 m * z))
    (e14 m + (e2 m * x + e6 m * y + e10 m * z))
    (e15 m + (e3 m * x + e7 m * y + e11 m * z)).

(** Modelled from the spec: [m.rotate(angle, 0, 0, 1)] of the library is
    [m.concat(new Matrix4().setRotate(angle, 0, 0, 1))]. *)
Definition rotateZ (M : JS.Math) (m : Matrix4) (angle : Q) : Matrix4 :=
  concat m (setRotateZ M angle).

(** Modelled from the spec: [m.setOrtho(left, right, bottom, top, near,
    far)] of the library, for a frustum that is not null (the library
    throws on a null one). *)
Definition setOrtho (left right bottom top near far : Q) : Matrix4 :=
  let rw := 1 / (right - left) in
  let rh := 1 / (top - bottom) in
  let rd := 1 / (far - near) in
  mkMatrix4
    (2 * rw) 0 0 0
    0 (2 * rh) 0 0
    0 0 (-2 * rd) 0
    (- (right + left) * rw) (- (top + bottom) * rh) (- (far + near) * rd) 1.

(** Modelled from the spec: [m.multiplyVector4(pos)] of the library
    returns a new vector, the product of the matrix and [pos]. *)
Definition multiplyVector4 (m : Matrix4) (p : Vector4) : Vector4 :=
  mkVector4
    (v0 p * e0 m + v1 p * e4 m + v2 p * e8 m + v3 p * e12 m)
    (v0 p * e1 m + v1 p * e5 m + v2 p * e9 m + v3 p * e13 m)
    (v0 p * e2 m + v1 p * e6 m + v2 p * e10 m + v3 p * e14 m)
    (v0 p * e3 m + v1 p * e7 m + v2 p * e11 m + v3 p * e15 m).

(** Equality of matrices and vectors, element by element. *)
Definition Meq (a b : Matrix4) : Prop :=
  (e0 a == e0 b /\ e1 a == e1 b /\ e2 a == e2 b /\ e3 a == e3 b) /\
  (e4 a == e4 b /\ e5 a == e5 b /\ e6 a == e6 b /\ e7 a == e7 b) /\
  (e8 a == e8 b /\ e9 a == e9 b /\ e10 a == e10 b /\ e11 a == e11 b) /\
  (e12 a == e12 b /\ e13 a == e13 b /\ e14 a == e14 b /\ e15 a == e15 b).

Definition Veq (p q : Vector4) : Prop :=
  v0 p == v0 q /\ v1 p == v1 q /\ v2 p == v2 q /\ v3 p == v3 q.

End Cuon.

(** ** Program state *)

(** [vertices]: two values per vertex, the x and y coordinates. *)
Definition vertices : list Q :=
  [ -0.5; -0.5;
    0.5; -0.5;
    0.5; 0.5;
    -0.5; -0.5;
    0.5; 0.5;
    -0.5; 0.5 ].

(** [numPoints = vertices.length / 2]. *)
Definition numPoints : nat := (List.length vertices / 2)%nat.

(** [colors]: a color value for each vertex. *)
Definition colors : list Q :=
  [ 1.0; 0.5; 0.5; 1.0;
    0.0; 1.0; 0.5; 1.0;
    0.5; 0.5; 1.0; 1.0;
    1.0; 0.5; 0.5; 1.0;
    0.5; 0.5; 1.0; 1.0;
    1.0; 1.0; 1.0; 1.0 ].

(** [wsize]: window length. *)
Definition wsize : Q := 5.

(** The globals of the script and the variables of the [runanimation]
    closure.  [console] is what [console.log] has printed.  [calls] is a
    history variable: the arguments of every call of [processCollision] so
    far, oldest first; the program keeps no such list. *)
Record State : Type := mkState {
  cindex : nat;
  click : bool;
  modelMatrix : Cuon.Matrix4;
  projectionMatrix : Cuon.Matrix4;
  collisionMode : nat;
  scale : Q;
  ang : Q;
  tx : Q;
  ty : Q;
  increment : Q;
  currentCorner : Cuon.Vector4;
  console : list string;
  calls : list (nat * string)
}.

Definition set_cindex (v : nat) (s : State) : State :=
  mkState v (click s) (modelMatrix s) (projectionMatrix s) (collisionMode s)
    (scale s) (ang s) (tx s) (ty s) (increment s) (currentCorner s)
    (console s) (calls s).

Definition set_click (v : bool) (s : State) : State :=
  mkState (cindex s) v (modelMatrix s) (projectionMatrix s) (collisionMode s)
    (scale s) (ang s) (tx s) (ty s) (increment s) (currentCorner s)
    (console s) (calls s).

Definition set_modelMatrix (v : Cuon.Matrix4) (s : State) : State :=
  mkState (cindex s) (click s) v (projectionMatrix s) (collisionMode s)
    (scale s) (ang s) (tx s) (ty s) (increment s) (currentCorner s)
    (console s) (calls s).

Definition set_collisionMode (v : nat) (s : State) : State :=
  mkState (cindex s) (click s) (modelMatrix s) (projectionMatrix s) v
    (scale s) (ang s) (tx s) (ty s) (increment s) (currentCorner s)
    (console s) (calls s).

Definition set_scale (v : Q) (s : State) : State :=
  mkState (cindex s) (click s) (modelMatrix s) (projectionMatrix s)
    (collisionMode s) v (ang s) (tx s) (ty s) (increment s) (currentCorner s)
    (console s) (calls s).

Definition set_ang (v : Q) (s : State) : State :=
  mkState (cindex s) (click s) (modelMatrix s) (projectionMatrix s)
    (collisionMode s) (scale s) v (tx s) (ty s) (increment s)
    (currentCorner s) (console s) (calls s).

Definition set_tx (v : Q) (s : State) : State :=
  mkState (cindex s) (click s) (modelMatrix s) (projectionMatrix s)
    (collisionMode s) (scale s) (ang s) v (ty s) (increment s)
    (currentCorner s) (console s) (calls s).

Definition set_ty (v : Q) (s : State) : State :=
  mkState (cindex s) (click s) (modelMatrix s) (projectionMatrix s)
    (collisionMode s) (scale s) (ang s) (tx s) v (increment s)
    (currentCorner s) (console s) (calls s).

Definition set_increment (v : Q) (s : State) : State :=
  mkState (cindex s) (click s) (modelMatrix s) (projectionMatrix s)
    (collisionMode s) (scale s) (ang s) (tx s) (ty s) v (currentCorner s)
    (console s) (calls s).

Definition set_currentCorner (v : Cuon.Vector4) (s : State) : State :=
  mkState (cindex s) (click s) (modelMatrix s) (projectionMatrix s)
    (collisionMode s) (scale s) (ang s) (tx s) (ty s) (increment s) v
    (console s) (calls s).

Definition console_log (msg : string) (s : State) : State :=
  mkState (cindex s) (click s) (modelMatrix s) (projectionMatrix s)
    (collisionMode s) (scale s) (ang s) (tx s) (ty s) (increment s)
    (currentCorner s) (console s ++ [msg]) (calls s).

Definition record_call (i : nat) (t : string) (s : State) : State :=
  mkState (cindex s) (click s) (modelMatrix s) (projectionMatrix s)
    (collisionMode s) (scale s) (ang s) (tx s) (ty s) (increment s)
    (currentCorner s) (console s) (calls s ++ [(i, t)]).

(** [getVertex(i)]: the coordinates of the vertex at index [i].  The index
    [j + 1] is below [vertices.length] for every [i]. *)
Definition getVertex (i : nat) : Q * Q :=
  let j := ((i mod numPoints) * 2)%nat in
  (nth j vertices 0, nth (j + 1) vertices 0).

(** The state once the page is loaded and the closure is set up, before
    the first frame. *)
Definition init : State :=
  let cindex0 := 0%nat in
  {| cindex := cindex0;
     click := false;
     modelMatrix := Cuon.identity;
     projectionMatrix :=
       Cuon.setOrtho (- wsize / 2) (wsize / 2) (- wsize / 2) (wsize / 2) 0 1;
     collisionMode := 0%nat;
     scale := 1.0;
     ang := 0.0;
     tx := 0;
     ty := 0;
     increment := 2.0;
     currentCorner :=
       Cuon.mkVector4 (fst (getVertex cindex0)) (snd (getVertex cindex0))
         0.0 1.0;
     console := [];
     calls := [] |}.

(** ** Keyboard *)

(** A keydown event: [key] is [None] where the browser does not define
    [event.key]; [which] is the legacy key code. *)
Record KeyboardEvent : Type := mkKeyboardEvent {
  key : option string;
  which : nat
}.

(** [getChar(event)]: [event.key || String.fromCharCode(event.which)]; an
    undefined or empty [key] is falsy. *)
Definition getChar (event : KeyboardEvent) : string :=
  match key event with
  | Some k => if String.eqb k "" then JS.fromCharCode (which event) else k
  | None => JS.fromCharCode (which event)
  end.

(** [handleKeyPress(event)]. *)
Definition handleKeyPress (event : KeyboardEvent) (s : State) : State :=
  let ch := getChar event in
  if String.eqb ch "r" then
    set_click true (set_cindex 0 (console_log "r" s))
  else if String.eqb ch "g" then
    set_click true (set_cindex 1 (console_log "g" s))
  else if String.eqb ch "b" then
    set_click true (set_cindex 2 (console_log "b" s))
  else if String.eqb ch "w" then
    set_click true (set_cindex 5 (console_log "w" s))
  else if String.eqb ch "ArrowUp" then
    let s := console_log "ArrowUp" s in
    let s := if JS.ltb (scale s) 1.5 then set_scale (scale s + 0.1) s else s in
    set_click true s
  else if String.eqb ch "ArrowDown" then
    let s := console_log "ArrowDown" s in
    let s := if JS.ltb 0.5 (scale s) then set_scale (scale s - 0.1) s else s in
    set_click true s
  else if String.eqb ch "0" then
    set_click true (set_collisionMode 0 (console_log "0" s))
  else if String.eqb ch "1" then
    set_click true (set_collisionMode 1 (console_log "1" s))
  else s.

(** ** Animation *)

(** [rotateAndScaleAboutCorner(ang, x, y, tx, ty)] sets [modelMatrix]. *)
Definition rotateAndScaleAboutCorner (M : JS.Math) (ang x y tx ty : Q)
    (s : State) : State :=
  let m := Cuon.setTranslate x y 0.0 in
  let m := Cuon.scale m (scale s) (scale s) 1 in
  let m := Cuon.rotateZ M m ang in
  let m := Cuon.translate m (- x) (- y) 0.0 in
  let m := Cuon.translate m tx ty 0.0 in
  set_modelMatrix m s.

(** [cornerIndexes]: the tracked corners. *)
Definition cornerIndexes : list nat := [0; 1; 2; 5]%nat.

(** [getTransformedPosition(index)]: the first two coordinates of the
    vertex under [modelMatrix]. *)
Definition getTransformedPosition (index : nat) (s : State) : Q * Q :=
  let vertex := getVertex index in
  let position := Cuon.mkVector4 (fst vertex) (snd vertex) 0.0 1.0 in
  let position := Cuon.multiplyVector4 (modelMatrix s) position in
  (Cuon.v0 position, Cuon.v1 position).

(** The matrix [processCollision] builds for a collision type; the
    [switch] has no default case, so another string leaves the identity. *)
Definition translateMatrix (collisionType : string) : Cuon.Matrix4 :=
  let fixAmount := 0.08 in
  if String.eqb collisionType "left" then Cuon.setTranslate fixAmount 0 0
  else if String.eqb collisionType "right" then
    Cuon.setTranslate (- fixAmount) 0 0
  else if String.eqb collisionType "up" then
    Cuon.setTranslate 0 (- fixAmount) 0
  else if String.eqb collisionType "down" then
    Cuon.setTranslate 0 fixAmount 0
  else Cuon.identity.

(** [processCollision(collidedIndex, position, collisionType)]. *)
Definition processCollision (collidedIndex : nat) (position : Q * Q)
    (collisionType : string) (s : State) : State :=
  let s := record_call collidedIndex collisionType s in
  let s :=
    set_modelMatrix
      (Cuon.multiply (translateMatrix collisionType) (modelMatrix s)) s in
  if Nat.eqb (collisionMode s) 0 then
    set_click true (set_cindex collidedIndex s)
  else
    set_increment (increment s * -1) s.

(** The body of the loop of [detectcollision], for the corner [ci]. *)
Definition detectcollision_body (s : State) (ci : nat) : State :=
  let position := getTransformedPosition ci s in
  let x := fst position in
  let y := snd position in
  if JS.ltb x (- wsize / 2) then processCollision ci (x, y) "left" s
  else if JS.ltb (wsize / 2) x then processCollision ci (x, y) "right" s
  else if JS.ltb y (- wsize / 2) then processCollision ci (x, y) "down" s
  else if JS.ltb (wsize / 2) y then processCollision ci (x, y) "up" s
  else s.

(** [detectcollision()]: the loop over [cornerIndexes]. *)
Definition detectcollision (s : State) : State :=
  fold_left detectcollision_body cornerIndexes s.

(** The part of a frame that runs when [click] is set: the pivot and the
    translation are taken anew from the vertex [cindex]. *)
Definition reanchor (s : State) : State :=
  let v := getVertex (cindex s) in
  let vx := fst v in
  let vy := snd v in
  let c := currentCorner s in
  let c := Cuon.mkVector4 vx vy (Cuon.v2 c) (Cuon.v3 c) in
  let c := Cuon.multiplyVector4 (modelMatrix s) c in
  let s := set_currentCorner c s in
  let s := set_tx (Cuon.v0 (currentCorner s) - vx) s in
  let s := set_ty (Cuon.v1 (currentCorner s) - vy) s in
  set_click false s.

(** What [draw()] sends to the shader as [transform]; [draw] changes no
    variable of the program. *)
Definition draw (s : State) : Cuon.Matrix4 :=
  Cuon.multiply (projectionMatrix s) (modelMatrix s).

(** One call of the loop [runanimation] returns: one frame. *)
Definition runanimation (M : JS.Math) (s : State) : State :=
  let s := detectcollision s in
  let s := set_ang (ang s + increment s) s in
  let s := set_ang (JS.rem (ang s) 360) s in
  let s := if click s then reanchor s else s in
  rotateAndScaleAboutCorner M (ang s)
    (Cuon.v0 (currentCorner s)) (Cuon.v1 (currentCorner s)) (tx s) (ty s) s.

(** What happens to the page: a keydown event or an animation frame. *)
Inductive Event : Type :=
| KeyDown (event : KeyboardEvent)
| AnimationFrame.

Definition step (M : JS.Math) (s : State) (ev : Event) : State :=
  match ev with
  | KeyDown event => handleKeyPress event s
  | AnimationFrame => runanimation M s
  end.

Definition run (M : JS.Math) (evs : list Event) (s : State) : State :=
  fold_left (step M) evs s.

(** A rational stand-in for the host's trigonometry, to run the model on
    concrete inputs: with [t = a / 2] in place of the tangent of the half
    angle, [(cos a, sin a)] is a point of the unit circle, and [cos 0 = 1],
    [sin 0 = 0].  Every theorem holds for all [M : JS.Math]. *)
Definition sampleMath : JS.Math :=
  JS.mkMath (355 # 113)
    (fun a => let t := a / 2 in 2 * t / (1 + t * t))
    (fun a => let t := a / 2 in (1 - t * t) / (1 + t * t)).

(** ** The other copy of the script *)

(** The second copy of the script among the sources differs in the
    collision code only: [doCollision] takes the collision type as a number
    and looks the translation up in a table. *)
Module Part000.

(** The names the comments of the table give the collision types; used for
    the history of calls only. *)
Definition typeName (collisionType : nat) : string :=
  match collisionType with
  | 0%nat => "left"
  | 1%nat => "right"
  | 2%nat => "up"
  | _ => "down"
  end.

(** [translations[collisionType]]: undefined for a key the table lacks. *)
Definition translations (collisionType : nat) : option (Q * Q * Q) :=
  let translationAmount := 0.08 in
  match collisionType with
  | 0%nat => Some (translationAmount, 0, 0)
  | 1%nat => Some (- translationAmount, 0, 0)
  | 2%nat => Some (0, - translationAmount, 0)
  | 3%nat => Some (0, translationAmount, 0)
  | _ => None
  end.

(** [doCollision(collidedIndex, collisionType)]; [None] is the TypeError of
    reading an element of an undefined [translation]. *)
Definition doCollision (collidedIndex collisionType : nat) (s : State)
    : option State :=
  match translations collisionType with
  | None => None
  | Some (t0, t1, t2) =>
      let s := record_call collidedIndex (typeName collisionType) s in
      let s :=
        set_modelMatrix
          (Cuon.multiply (Cuon.setTranslate t0 t1 t2) (modelMatrix s)) s in
      Some (if Nat.eqb (collisionMode s) 0 then
              set_click true (set_cindex collidedIndex s)
            else
              set_increment (increment s * -1) s)
  end.

(** The body of the loop of [detectCollision]. *)
Definition detectCollision_body (s : option State) (cornerIndex : nat)
    : option State :=
  match s with
  | None => None
  | Some s =>
      let position := getTransformedPosition cornerIndex s in
      let x := fst position in
      let y := snd position in
      let halfSize := wsize / 2 in
      if JS.ltb x (- halfSize) then doCollision cornerIndex 0 s
      else if JS.ltb halfSize x then doCollision cornerIndex 1 s
      else if JS.ltb y (- halfSize) then doCollision cornerIndex 3 s
      else if JS.ltb halfSize y then doCollision cornerIndex 2 s
      else Some s
  end.

(** [cornersIndexes] and [detectCollision()]. *)
Definition cornersIndexes : list nat := [0; 1; 2; 5]%nat.

Definition detectCollision (s : State) : option State :=
  fold_left detectCollision_body cornersIndexes (Some s).

End Part000.

(** ** Sample states *)

(** The square one frame after it was moved 2.1 to the right, at angle 0:
    the corners 1 and 2 are at x = 2.6, beyond the right edge. *)
Definition nearRightEdge : State :=
  {| cindex := 0;
     click := false;
     modelMatrix := Cuon.setTranslate 2.1 0 0;
     projectionMatrix := projectionMatrix init;
     collisionMode := 0;
     scale := 1.0;
     ang := 0;
     tx := 2.1;
     ty := 0;
     increment := 2.0;
     currentCorner := Cuon.mkVector4 1.6 (- 0.5) 0 1;
     console := [];
     calls := [] |}.

(** The same in collision mode 1. *)
Definition nearRightEdge1 : State := set_collisionMode 1 nearRightEdge.

(** The square moved 2.1 to the left and 2.1 down: the corner 0 is at
    (-2.6, -2.6), beyond the left edge and beyond the bottom edge. *)
Definition nearBottomLeft : State :=
  {| cindex := 0;
     click := false;
     modelMatrix := Cuon.setTranslate (- 2.1) (- 2.1) 0;
     projectionMatrix := projectionMatrix init;
     collisionMode := 0;
     scale := 1.0;
     ang := 0;
     tx := - 2.1;
     ty := - 2.1;
     increment := 2.0;
     currentCorner := Cuon.mkVector4 (- 2.6) (- 2.6) 0 1;
     console := [];
     calls := [] |}.

(** The state [init] with the identity in place of the projection matrix;
    no run reaches it. *)
Definition identityProjection : State :=
  {| cindex := cindex init;
     click := click init;
     modelMatrix := modelMatrix init;
     projectionMatrix := Cuon.identity;
     collisionMode := collisionMode init;
     scale := scale init;
     ang := ang init;
     tx := tx init;
     ty := ty init;
     increment := increment init;
     currentCorner := currentCorner init;
     console := console init;
     calls := calls init |}.

(** ** Reference definitions *)

(** The product T(x,y) S(k) R(ang) T(-x,-y) T(tx,ty) of elementary matrices,
    written out as the specification names it. *)
Definition pivotTransform (M : JS.Math) (k ang x y tx ty : Q) : Cuon.Matrix4 :=
  Cuon.concat
    (Cuon.concat
       (Cuon.concat
          (Cuon.concat (Cuon.setTranslate x y 0) (Cuon.setScale k k 1))
          (Cuon.setRotateZ M ang))
       (Cuon.setTranslate (- x) (- y) 0))
    (Cuon.setTranslate tx ty 0).

(** The model matrix as the scalars of the state determine it: the pivot is
    the vertex [ci] moved by [(tx, ty)]. *)
Definition frameMatrix (M : JS.Math) (ang k tx ty : Q) (ci : nat)
    : Cuon.Matrix4 :=
  let v := getVertex ci in
  pivotTransform M k ang (fst v + tx) (snd v + ty) tx ty.

(** [m'] is [m] followed by the translation by [(dx, dy)]: the product with
    the translation on the left, which moves every transformed point. *)
Definition translatedBy (dx dy : Q) (m m' : Cuon.Matrix4) : Prop :=
  m' = Cuon.multiply (Cuon.setTranslate dx dy 0) m /\
  forall p : Cuon.Vector4,
    let q := Cuon.multiplyVector4 m p in
    Cuon.Veq (Cuon.multiplyVector4 m' p)
      (Cuon.mkVector4 (Cuon.v0 q + dx * Cuon.v3 q)
         (Cuon.v1 q + dy * Cuon.v3 q) (Cuon.v2 q) (Cuon.v3 q)).

(** The entry a corner adds to the history of calls: none, or one. *)
Definition callOf (ci : nat) (t : option string) : list (nat * string) :=
  match t with
  | Some t => [(ci, t)]
  | None => []
  end.

(** The keys [handleKeyPress] has a case for. *)
Definition handledKeys : list string :=
  ["r"; "g"; "b"; "w"; "ArrowUp"; "ArrowDown"; "0"; "1"]%string.

(** The keys that select a corner, each with the index of its vertex. *)
Definition cornerKeys : list (string * nat) :=
  [("r", 0); ("g", 1); ("b", 2); ("w", 5)]%string%nat.

(** The triangles [gl.drawArrays(gl.TRIANGLES, 0, numPoints)] draws: the
    vertices three by three. *)
Definition triangles : list ((Q * Q) * (Q * Q) * (Q * Q)) :=
  map (fun k => (getVertex (3 * k), getVertex (3 * k + 1),
                 getVertex (3 * k + 2)))
    (seq 0 (numPoints / 3)).

(** Twice the signed area of the triangle [a b p]: not negative when [p]
    is on the left of the edge from [a] to [b], or on it. *)
Definition edge (a b p : Q * Q) : Q :=
  (fst b - fst a) * (snd p - snd a) - (snd b - snd a) * (fst p - fst a).

(** [p] is in the closed triangle, whose vertices turn counterclockwise. *)
Definition inTriangle (t : (Q * Q) * (Q * Q) * (Q * Q)) (p : Q * Q) : Prop :=
  let '(a, b, c) := t in
  0 <= edge a b p /\ 0 <= edge b c p /\ 0 <= edge c a p.

(** [p] is in the square [-0.5, 0.5] x [-0.5, 0.5]. *)
Definition inSquare (p : Q * Q) : Prop :=
  (- 0.5 <= fst p /\ fst p <= 0.5) /\ (- 0.5 <= snd p /\ snd p <= 0.5).

(** ** Invariants *)

(** The scale factor is 1 plus a whole number of steps of 0.1, between
    five steps down and five steps up. *)
Definition scaleOnGrid (s : State) : Prop :=
  exists k : Z, (-5 <= k <= 5)%Z /\ scale s == 1 + inject_Z k * 0.1.

(** The matrix is a transformation of the plane: the third and the fourth
    row are those of the identity. *)
Definition affine (m : Cuon.Matrix4) : Prop :=
  (Cuon.e2 m == 0 /\ Cuon.e6 m == 0 /\ Cuon.e10 m == 1 /\
   Cuon.e14 m == 0) /\
  (Cuon.e3 m == 0 /\ Cuon.e7 m == 0 /\ Cuon.e11 m == 0 /\
   Cuon.e15 m == 1).

(** The model matrix is a transformation of the plane and the pivot is a
    point of the plane. *)
Definition wellFormed (s : State) : Prop :=
  affine (modelMatrix s) /\
  Cuon.v2 (currentCorner s) == 0 /\ Cuon.v3 (currentCorner s) == 1.

(** Unless a re-anchoring is pending, the pivot is the vertex [cindex]
    moved by the translation. *)
Definition anchored (s : State) : Prop :=
  click s = false ->
  Cuon.v0 (currentCorner s) == fst (getVertex (cindex s)) + tx s /\
  Cuon.v1 (currentCorner s) == snd (getVertex (cindex s)) + ty s.

(** ** Drawing *)

(** The calls [draw()] makes on the rendering context [gl]. *)
Module GL.

Inductive Buffer : Type := vertexbuffer | colorbuffer.

Inductive DrawMode : Type := TRIANGLES | POINTS.

Inductive Command : Type :=
| clear
| useProgram (bound : bool)
| bindBuffer (buffer : option Buffer)
| enableVertexAttribArray (index : Z)
| vertexAttribPointer (index : Z) (size : nat)
| uniformMatrix4fv (transform : Cuon.Matrix4)
| drawArrays (mode : DrawMode) (first count : nat)
| disableVertexAttribArray (index : Z).

End GL.

(** [draw()], given what [gl.getAttribLocation] answers for "a_Position"
    and "a_Color" (negative when the shader has no such attribute): the
    calls made, and the message logged on a failure. *)
Definition drawGL (positionIndex colorIndex : Z) (s : State)
    : list GL.Command * option string :=
  let start :=
    [GL.clear; GL.useProgram true; GL.bindBuffer (Some GL.vertexbuffer)] in
  if (positionIndex <? 0)%Z then
    (start, Some "Failed to get the storage location of a_Position"%string)
  else
    let position :=
      [GL.enableVertexAttribArray positionIndex;
       GL.vertexAttribPointer positionIndex 2;
       GL.bindBuffer None;
       GL.bindBuffer (Some GL.colorbuffer)] in
    if (colorIndex <? 0)%Z then
      (start ++ position,
       Some "Failed to get the storage location of a_Color"%string)
    else
      let transform :=
        Cuon.multiply (projectionMatrix s) (modelMatrix s) in
      (start ++ position ++
       [GL.enableVertexAttribArray colorIndex;
        GL.vertexAttribPointer colorIndex 4;
        GL.uniformMatrix4fv transform;
        GL.drawArrays GL.TRIANGLES 0 numPoints;
        GL.drawArrays GL.POINTS (cindex s) 1;
        GL.bindBuffer None;
        GL.disableVertexAttribArray positionIndex;
        GL.useProgram false],
       None).

(** ** Key presses in a row *)

(** The key handler run on a list of events, first to last. *)
Definition pressKeys (events : list KeyboardEvent) (s : State) : State :=
  fold_left (fun s event => handleKeyPress event s) events s.

(** [ch] is one of the keys the handler has a case for. *)
Definition isHandled (ch : string) : bool :=
  existsb (String.eqb ch) handledKeys.

(** ** Distances *)

(** The square of the distance between two points of the plane. *)
Definition dist2 (p q : Q * Q) : Q :=
  (fst p - fst q) * (fst p - fst q) + (snd p - snd q) * (snd p - snd q).

(** * Theorems *)

(** ** Numbers *)

Lemma JS_ltb_lt (x y : Q) : JS.ltb x y = true <-> x < y.
Proof.
  unfold JS.ltb. rewrite negb_true_iff.
  destruct (Qle_bool y x) eqn:E.
  - apply Qle_bool_iff in E. split; [discriminate | intro H; lra].
  - split; [intros _ | reflexivity].
    destruct (Qlt_le_dec x y) as [H | H]; [exact H |].
    apply Qle_bool_iff in H. congruence.
Qed.

Lemma JS_ltb_ge (x y : Q) : JS.ltb x y = false <-> y <= x.
Proof.
  unfold JS.ltb. rewrite negb_false_iff. apply Qle_bool_iff.
Qed.

(** ** Matrices *)

Ltac matrix_eq :=
  unfold Cuon.Meq, Cuon.Veq, Cuon.rotateZ, Cuon.multiply, Cuon.concat,
    Cuon.scale, Cuon.translate, Cuon.setTranslate, Cuon.setScale,
    Cuon.setRotateZ, Cuon.multiplyVector4, Cuon.identity;
  cbn [Cuon.e0 Cuon.e1 Cuon.e2 Cuon.e3 Cuon.e4 Cuon.e5 Cuon.e6 Cuon.e7
       Cuon.e8 Cuon.e9 Cuon.e10 Cuon.e11 Cuon.e12 Cuon.e13 Cuon.e14 Cuon.e15
       Cuon.v0 Cuon.v1 Cuon.v2 Cuon.v3];
  repeat split; ring.

Lemma Meq_refl (a : Cuon.Matrix4) : Cuon.Meq a a.
Proof. unfold Cuon.Meq. repeat split; reflexivity. Qed.

Lemma Meq_sym (a b : Cuon.Matrix4) : Cuon.Meq a b -> Cuon.Meq b a.
Proof. unfold Cuon.Meq. intuition (symmetry; assumption). Qed.

Lemma Meq_trans (a b c : Cuon.Matrix4) :
  Cuon.Meq a b -> Cuon.Meq b c -> Cuon.Meq a c.
Proof.
  unfold Cuon.Meq. intros H1 H2.
  repeat match goal with H : _ /\ _ |- _ => destruct H end.
  repeat split; etransitivity; eassumption.
Qed.

(** The in-place operations of the library are products on the right. *)
Lemma scale_concat (m : Cuon.Matrix4) (x y z : Q) :
  Cuon.Meq (Cuon.scale m x y z) (Cuon.concat m (Cuon.setScale x y z)).
Proof. matrix_eq. Qed.

Lemma translate_concat (m : Cuon.Matrix4) (x y z : Q) :
  Cuon.Meq (Cuon.translate m x y z) (Cuon.concat m (Cuon.setTranslate x y z)).
Proof. matrix_eq. Qed.

Lemma concat_assoc (a b c : Cuon.Matrix4) :
  Cuon.Meq (Cuon.concat (Cuon.concat a b) c) (Cuon.concat a (Cuon.concat b c)).
Proof. matrix_eq. Qed.

Lemma concat_Meq (a a' b b' : Cuon.Matrix4) :
  Cuon.Meq a a' -> Cuon.Meq b b' ->
  Cuon.Meq (Cuon.concat a b) (Cuon.concat a' b').
Proof.
  unfold Cuon.Meq. intros Ha Hb.
  repeat match goal with H : _ /\ _ |- _ => destruct H end.
  unfold Cuon.concat; cbn [Cuon.e0 Cuon.e1 Cuon.e2 Cuon.e3 Cuon.e4 Cuon.e5
    Cuon.e6 Cuon.e7 Cuon.e8 Cuon.e9 Cuon.e10 Cuon.e11 Cuon.e12 Cuon.e13
    Cuon.e14 Cuon.e15].
  repeat split;
    repeat match goal with H : _ == _ |- _ => rewrite H; clear H end;
    reflexivity.
Qed.

Lemma multiplyVector4_concat (a b : Cuon.Matrix4) (p : Cuon.Vector4) :
  Cuon.Veq (Cuon.multiplyVector4 (Cuon.concat a b) p)
    (Cuon.multiplyVector4 a (Cuon.multiplyVector4 b p)).
Proof. matrix_eq. Qed.

Lemma Veq_refl (p : Cuon.Vector4) : Cuon.Veq p p.
Proof. unfold Cuon.Veq. repeat split; reflexivity. Qed.

Lemma Veq_sym (p q : Cuon.Vector4) : Cuon.Veq p q -> Cuon.Veq q p.
Proof. unfold Cuon.Veq. intuition (symmetry; assumption). Qed.

Lemma Veq_trans (p q r : Cuon.Vector4) :
  Cuon.Veq p q -> Cuon.Veq q r -> Cuon.Veq p r.
Proof.
  unfold Cuon.Veq. intros H1 H2.
  repeat match goal with H : _ /\ _ |- _ => destruct H end.
  repeat split; etransitivity; eassumption.
Qed.

Lemma multiplyVector4_Meq (a b : Cuon.Matrix4) (p q : Cuon.Vector4) :
  Cuon.Meq a b -> Cuon.Veq p q ->
  Cuon.Veq (Cuon.multiplyVector4 a p) (Cuon.multiplyVector4 b q).
Proof.
  unfold Cuon.Meq, Cuon.Veq. intros Ha Hp.
  repeat match goal with H : _ /\ _ |- _ => destruct H end.
  unfold Cuon.multiplyVector4; cbn [Cuon.v0 Cuon.v1 Cuon.v2 Cuon.v3].
  repeat split;
    repeat match goal with H : _ == _ |- _ => rewrite H; clear H end;
    reflexivity.
Qed.

#[export] Instance Meq_Equivalence : Equivalence Cuon.Meq.
Proof.
  split; [exact Meq_refl | exact Meq_sym | exact Meq_trans].
Qed.

#[export] Instance Veq_Equivalence : Equivalence Cuon.Veq.
Proof.
  split; [exact Veq_refl | exact Veq_sym | exact Veq_trans].
Qed.

#[export] Instance concat_Proper :
  Proper (Cuon.Meq ==> Cuon.Meq ==> Cuon.Meq) Cuon.concat.
Proof. intros a a' Ha b b' Hb. now apply concat_Meq. Qed.

#[export] Instance multiplyVector4_Proper :
  Proper (Cuon.Meq ==> Cuon.Veq ==> Cuon.Veq) Cuon.multiplyVector4.
Proof. intros a a' Ha p q Hp. now apply multiplyVector4_Meq. Qed.

(** What the elementary matrices do to a point. *)
Lemma multiplyVector4_setTranslate (x y z : Q) (p : Cuon.Vector4) :
  Cuon.Veq (Cuon.multiplyVector4 (Cuon.setTranslate x y z) p)
    (Cuon.mkVector4 (Cuon.v0 p + x * Cuon.v3 p) (Cuon.v1 p + y * Cuon.v3 p)
       (Cuon.v2 p + z * Cuon.v3 p) (Cuon.v3 p)).
Proof. matrix_eq. Qed.

Lemma multiplyVector4_setScale (x y z : Q) (p : Cuon.Vector4) :
  Cuon.Veq (Cuon.multiplyVector4 (Cuon.setScale x y z) p)
    (Cuon.mkVector4 (x * Cuon.v0 p) (y * Cuon.v1 p) (z * Cuon.v2 p)
       (Cuon.v3 p)).
Proof. matrix_eq. Qed.

Lemma multiplyVector4_setRotateZ (M : JS.Math) (a : Q) (p : Cuon.Vector4) :
  let c := JS.cos M (JS.PI M * a / 180) in
  let s := JS.sin M (JS.PI M * a / 180) in
  Cuon.Veq (Cuon.multiplyVector4 (Cuon.setRotateZ M a) p)
    (Cuon.mkVector4 (c * Cuon.v0 p - s * Cuon.v1 p)
       (s * Cuon.v0 p + c * Cuon.v1 p) (Cuon.v2 p) (Cuon.v3 p)).
Proof. cbv zeta. matrix_eq. Qed.

(** ** The model matrix of a frame *)

Lemma setTranslate_Meq (x y z x' y' z' : Q) :
  x == x' -> y == y' -> z == z' ->
  Cuon.Meq (Cuon.setTranslate x y z) (Cuon.setTranslate x' y' z').
Proof.
  intros Hx Hy Hz. unfold Cuon.Meq, Cuon.setTranslate; cbn.
  repeat split; try reflexivity; assumption.
Qed.

Lemma rotateAndScaleAboutCorner_matrix (M : JS.Math) (ang x y tx ty : Q)
    (s : State) :
  Cuon.Meq (modelMatrix (rotateAndScaleAboutCorner M ang x y tx ty s))
    (pivotTransform M (scale s) ang x y tx ty).
Proof.
  unfold rotateAndScaleAboutCorner, set_modelMatrix, pivotTransform.
  cbn [modelMatrix scale].
  rewrite !translate_concat. unfold Cuon.rotateZ. rewrite scale_concat.
  repeat apply concat_Meq; try reflexivity;
    apply setTranslate_Meq; reflexivity.
Qed.

Lemma pivotTransform_maps (M : JS.Math) (k ang x y tx ty z : Q) :
  Cuon.Veq
    (Cuon.multiplyVector4 (pivotTransform M k ang x y tx ty)
       (Cuon.mkVector4 (x - tx) (y - ty) z 1))
    (Cuon.mkVector4 x y z 1).
Proof.
  unfold pivotTransform.
  rewrite !multiplyVector4_concat.
  rewrite (multiplyVector4_setTranslate tx ty 0).
  cbn [Cuon.v0 Cuon.v1 Cuon.v2 Cuon.v3].
  rewrite (multiplyVector4_setTranslate (- x) (- y) 0).
  cbn [Cuon.v0 Cuon.v1 Cuon.v2 Cuon.v3].
  rewrite multiplyVector4_setRotateZ. cbv zeta.
  cbn [Cuon.v0 Cuon.v1 Cuon.v2 Cuon.v3].
  rewrite multiplyVector4_setScale.
  cbn [Cuon.v0 Cuon.v1 Cuon.v2 Cuon.v3].
  rewrite multiplyVector4_setTranslate.
  cbn [Cuon.v0 Cuon.v1 Cuon.v2 Cuon.v3].
  unfold Cuon.Veq; cbn [Cuon.v0 Cuon.v1 Cuon.v2 Cuon.v3].
  repeat split; ring.
Qed.

(** C4.  For every angle, scale factor, pivot [(x, y)] and translation
    [(tx, ty)], [rotateAndScaleAboutCorner] sets the model matrix to
    T(x,y) S(scale) R(ang) T(-x,-y) T(tx,ty) and changes nothing else; that
    matrix maps the point [(x - tx, y - ty)] to [(x, y)], and with
    [tx = ty = 0] it leaves the pivot [(x, y)] where it is. *)
Theorem rotateAndScaleAboutCorner_pivot (M : JS.Math) (ang x y tx ty : Q)
    (s : State) :
  let s' := rotateAndScaleAboutCorner M ang x y tx ty s in
  Cuon.Meq (modelMatrix s') (pivotTransform M (scale s) ang x y tx ty) /\
  s' = set_modelMatrix (modelMatrix s') s /\
  Cuon.Veq
    (Cuon.multiplyVector4 (modelMatrix s')
       (Cuon.mkVector4 (x - tx) (y - ty) 0 1))
    (Cuon.mkVector4 x y 0 1) /\
  Cuon.Veq
    (Cuon.multiplyVector4
       (modelMatrix (rotateAndScaleAboutCorner M ang x y 0 0 s))
       (Cuon.mkVector4 x y 0 1))
    (Cuon.mkVector4 x y 0 1).
Proof.
  cbv zeta. split; [apply rotateAndScaleAboutCorner_matrix |].
  split; [reflexivity |].
  split.
  - rewrite rotateAndScaleAboutCorner_matrix. apply pivotTransform_maps.
  - rewrite rotateAndScaleAboutCorner_matrix.
    rewrite <- (pivotTransform_maps M (scale s) ang x y 0 0 0) at 2.
    apply multiplyVector4_Meq; [reflexivity |].
    unfold Cuon.Veq; cbn. repeat split; ring.
Qed.

(** ** Collision detection and response *)

Ltac state_fields :=
  cbn [cindex click modelMatrix projectionMatrix collisionMode scale ang tx ty
       increment currentCorner console calls
       set_cindex set_click set_modelMatrix set_collisionMode set_scale
       set_ang set_tx set_ty set_increment set_currentCorner console_log
       record_call] in *.

Lemma half_extent : wsize / 2 == 2.5 /\ - wsize / 2 == - 2.5.
Proof. split; reflexivity. Qed.

(** One pass of the loop body makes at most one call of
    [processCollision], chosen by the first test that holds. *)
Lemma detectcollision_body_cases (s : State) (ci : nat) :
  let x := fst (getTransformedPosition ci s) in
  let y := snd (getTransformedPosition ci s) in
  let s' := detectcollision_body s ci in
  (x < - wsize / 2 /\ s' = processCollision ci (x, y) "left" s) \/
  (- wsize / 2 <= x /\ wsize / 2 < x /\
   s' = processCollision ci (x, y) "right" s) \/
  ((- wsize / 2 <= x /\ x <= wsize / 2) /\ y < - wsize / 2 /\
   s' = processCollision ci (x, y) "down" s) \/
  ((- wsize / 2 <= x /\ x <= wsize / 2) /\ - wsize / 2 <= y /\
   wsize / 2 < y /\ s' = processCollision ci (x, y) "up" s) \/
  ((- wsize / 2 <= x /\ x <= wsize / 2) /\
   (- wsize / 2 <= y /\ y <= wsize / 2) /\ s' = s).
Proof.
  cbv zeta. unfold detectcollision_body.
  set (x := fst (getTransformedPosition ci s)).
  set (y := snd (getTransformedPosition ci s)).
  destruct (JS.ltb x (- wsize / 2)) eqn:E1.
  { left. apply JS_ltb_lt in E1. auto. }
  apply JS_ltb_ge in E1.
  destruct (JS.ltb (wsize / 2) x) eqn:E2.
  { right; left. apply JS_ltb_lt in E2. auto. }
  apply JS_ltb_ge in E2.
  destruct (JS.ltb y (- wsize / 2)) eqn:E3.
  { right; right; left. apply JS_ltb_lt in E3. auto. }
  apply JS_ltb_ge in E3.
  destruct (JS.ltb (wsize / 2) y) eqn:E4.
  { right; right; right; left. apply JS_ltb_lt in E4. auto. }
  apply JS_ltb_ge in E4.
  right; right; right; right. auto.
Qed.

(** What [processCollision] does to each variable. *)
Lemma processCollision_fields (ci : nat) (p : Q * Q) (t : string) (s : State) :
  let s' := processCollision ci p t s in
  modelMatrix s' = Cuon.multiply (translateMatrix t) (modelMatrix s) /\
  calls s' = calls s ++ [(ci, t)] /\
  cindex s' = (if Nat.eqb (collisionMode s) 0 then ci else cindex s) /\
  click s' = (if Nat.eqb (collisionMode s) 0 then true else click s) /\
  increment s' =
    (if Nat.eqb (collisionMode s) 0 then increment s else increment s * -1) /\
  collisionMode s' = collisionMode s /\
  scale s' = scale s /\
  projectionMatrix s' = projectionMatrix s /\
  (ang s' = ang s /\ tx s' = tx s /\ ty s' = ty s) /\
  currentCorner s' = currentCorner s /\
  console s' = console s.
Proof.
  cbv zeta. unfold processCollision. state_fields.
  destruct (Nat.eqb (collisionMode s) 0); state_fields;
    repeat split; reflexivity.
Qed.

Lemma translateMatrix_cases :
  translateMatrix "left" = Cuon.setTranslate 0.08 0 0 /\
  translateMatrix "right" = Cuon.setTranslate (- 0.08) 0 0 /\
  translateMatrix "down" = Cuon.setTranslate 0 0.08 0 /\
  translateMatrix "up" = Cuon.setTranslate 0 (- 0.08) 0.
Proof. repeat split; reflexivity. Qed.

(** Multiplying by a translation on the left moves every transformed
    point by that translation. *)
Lemma multiply_setTranslate_left (dx dy : Q) (m : Cuon.Matrix4)
    (p : Cuon.Vector4) :
  let q := Cuon.multiplyVector4 m p in
  Cuon.Veq
    (Cuon.multiplyVector4 (Cuon.multiply (Cuon.setTranslate dx dy 0) m) p)
    (Cuon.mkVector4 (Cuon.v0 q + dx * Cuon.v3 q) (Cuon.v1 q + dy * Cuon.v3 q)
       (Cuon.v2 q) (Cuon.v3 q)).
Proof. cbv zeta. matrix_eq. Qed.

Lemma detectcollision_split (s0 : State) (pre post : list nat) (ci : nat) :
  cornerIndexes = pre ++ ci :: post ->
  detectcollision s0 =
  fold_left detectcollision_body post
    (detectcollision_body (fold_left detectcollision_body pre s0) ci).
Proof.
  intro H. unfold detectcollision. rewrite H, fold_left_app. reflexivity.
Qed.

(** C1.  In a frame, when the loop of [detectcollision] reaches a tracked
    corner [ci] whose position under the model matrix of that moment is
    beyond the half extent of the viewport on an axis, the response is: in
    collision mode 0 [cindex] becomes [ci] and [click] is set (the increment
    is kept); in collision mode 1 the increment is negated ([cindex] and
    [click] are kept); in both modes the model matrix becomes a translation
    of 0.08, opposite a violated axis, times the model matrix.  The loop
    then goes on with the remaining corners. *)
Theorem collision_response (s0 : State) (pre post : list nat) (ci : nat) :
  cornerIndexes = pre ++ ci :: post ->
  let s := fold_left detectcollision_body pre s0 in
  let x := fst (getTransformedPosition ci s) in
  let y := snd (getTransformedPosition ci s) in
  (x < - wsize / 2 \/ wsize / 2 < x \/ y < - wsize / 2 \/ wsize / 2 < y) ->
  let s' := detectcollision_body s ci in
  detectcollision s0 = fold_left detectcollision_body post s' /\
  (collisionMode s = 0%nat ->
   cindex s' = ci /\ click s' = true /\ increment s' = increment s) /\
  (collisionMode s = 1%nat ->
   increment s' == - increment s /\ cindex s' = cindex s /\
   click s' = click s) /\
  exists dx dy : Q,
    modelMatrix s' =
      Cuon.multiply (Cuon.setTranslate dx dy 0) (modelMatrix s) /\
    ((x < - wsize / 2 /\ dx == 0.08 /\ dy == 0) \/
     (wsize / 2 < x /\ dx == - 0.08 /\ dy == 0) \/
     (y < - wsize / 2 /\ dx == 0 /\ dy == 0.08) \/
     (wsize / 2 < y /\ dx == 0 /\ dy == - 0.08)).
Proof.
  intros Hsplit s x y Hout s'.
  split; [exact (detectcollision_split s0 pre post ci Hsplit) |].
  assert (Hcall : exists t : string,
             s' = processCollision ci (x, y) t s /\
             exists dx dy : Q,
               translateMatrix t = Cuon.setTranslate dx dy 0 /\
               ((x < - wsize / 2 /\ dx == 0.08 /\ dy == 0) \/
                (wsize / 2 < x /\ dx == - 0.08 /\ dy == 0) \/
                (y < - wsize / 2 /\ dx == 0 /\ dy == 0.08) \/
                (wsize / 2 < y /\ dx == 0 /\ dy == - 0.08))).
  { destruct (detectcollision_body_cases s ci)
      as [[H E] | [[_ [H E]] | [[_ [H E]] | [[_ [_ [H E]]] | H]]]];
      fold x y s' in H; try fold x y s' in E.
    - exists "left"%string. split; [exact E |].
      exists 0.08, 0. split; [reflexivity |].
      left. repeat split; auto with qarith.
    - exists "right"%string. split; [exact E |].
      exists (- 0.08), 0. split; [reflexivity |].
      right; left. repeat split; auto with qarith.
    - exists "down"%string. split; [exact E |].
      exists 0, 0.08. split; [reflexivity |].
      right; right; left. repeat split; auto with qarith.
    - exists "up"%string. split; [exact E |].
      exists 0, (- 0.08). split; [reflexivity |].
      right; right; right. repeat split; auto with qarith.
    - exfalso. destruct H as [[Hx1 Hx2] [[Hy1 Hy2] _]].
      destruct Hout as [H | [H | [H | H]]]; lra. }
  destruct Hcall as [t [E [dx [dy [Ht Hd]]]]].
  pose proof (processCollision_fields ci (x, y) t s) as F. cbv zeta in F.
  rewrite <- E in F.
  destruct F as [Fm [_ [Fc [Fk [Fi _]]]]].
  split; [| split].
  - intro H0. rewrite H0 in Fc, Fk, Fi. cbn in Fc, Fk, Fi. auto.
  - intro H1. rewrite H1 in Fc, Fk, Fi. cbn in Fc, Fk, Fi.
    rewrite Fi. repeat split; auto. ring.
  - exists dx, dy. rewrite Fm, Ht. split; [reflexivity | exact Hd].
Qed.

Lemma collision_response_witness :
  let s := nearRightEdge1 in
  let s' := detectcollision_body (detectcollision_body s 0) 1 in
  increment s' == - increment s /\ cindex s' = cindex s /\
  click s' = click s.
Proof.
  cbv zeta.
  refine (proj1 (proj2 (proj2
            (collision_response nearRightEdge1 [0%nat] [2%nat; 5%nat] 1%nat
               eq_refl _))) eq_refl).
  right; left. vm_compute. reflexivity.
Defined.

Lemma translatedBy_multiply (dx dy : Q) (m : Cuon.Matrix4) :
  translatedBy dx dy m (Cuon.multiply (Cuon.setTranslate dx dy 0) m).
Proof.
  split; [reflexivity |]. intro p. apply multiply_setTranslate_left.
Qed.

Lemma processCollision_modelMatrix (ci : nat) (p : Q * Q) (t : string)
    (s : State) :
  modelMatrix (processCollision ci p t s) =
  Cuon.multiply (translateMatrix t) (modelMatrix s).
Proof. apply (processCollision_fields ci p t s). Qed.

(** C2, as the code has it.  The response to a collision multiplies the
    model matrix on the left by a translation of 0.08 back into the
    viewport: [(+0.08, 0)] for x below [-wsize/2], [(-0.08, 0)] for x above
    [wsize/2], and, when x is within the viewport, [(0, +0.08)] for y below
    [-wsize/2] and [(0, -0.08)] for y above [wsize/2].  Every transformed
    point moves by that translation. *)
Theorem corrective_translation (s : State) (ci : nat) :
  let x := fst (getTransformedPosition ci s) in
  let y := snd (getTransformedPosition ci s) in
  let m := modelMatrix s in
  let m' := modelMatrix (detectcollision_body s ci) in
  (x < - wsize / 2 -> translatedBy 0.08 0 m m') /\
  (wsize / 2 < x -> translatedBy (- 0.08) 0 m m') /\
  (- wsize / 2 <= x /\ x <= wsize / 2 -> y < - wsize / 2 ->
   translatedBy 0 0.08 m m') /\
  (- wsize / 2 <= x /\ x <= wsize / 2 -> wsize / 2 < y ->
   translatedBy 0 (- 0.08) m m').
Proof.
  cbv zeta.
  pose proof (detectcollision_body_cases s ci) as C. cbv zeta in C.
  revert C.
  generalize (fst (getTransformedPosition ci s)) as x.
  generalize (snd (getTransformedPosition ci s)) as y.
  intros y x C. pose proof half_extent as [Hh Hl].
  set (h := wsize / 2) in *. set (l := - wsize / 2) in *. clearbody h l.
  split; [| split; [| split]]; intros;
    destruct C as [[H1 E] | [[H1 [H2 E]] | [[[H1 H2] [H3 E]] |
        [[[H1 H2] [H3 [H4 E]]] | [[H1 H2] [[H3 H4] E]]]]]];
    try (exfalso; clear E; lra);
    rewrite E, processCollision_modelMatrix;
    apply translatedBy_multiply.
Qed.

Lemma corrective_translation_witness :
  let s := nearBottomLeft in
  translatedBy 0 0.08 (modelMatrix s) (modelMatrix (detectcollision_body s 1)).
Proof.
  cbv zeta.
  refine (proj1 (proj2 (proj2 (corrective_translation nearBottomLeft 1))) _ _).
  - split; vm_compute; discriminate.
  - vm_compute. reflexivity.
Defined.

(** C2 as stated fails where a corner is beyond the viewport on both
    axes: the corner 0 of [nearBottomLeft] is at y = -2.6, below
    [-wsize/2], and the translation is [(+0.08, 0)], not [(0, +0.08)]. *)
Lemma corrective_translation_x_first :
  let s := nearBottomLeft in
  let y := snd (getTransformedPosition 0 s) in
  let m' := modelMatrix (detectcollision_body s 0) in
  y < - wsize / 2 /\
  m' = Cuon.multiply (Cuon.setTranslate 0.08 0 0) (modelMatrix s) /\
  ~ Cuon.Meq m' (Cuon.multiply (Cuon.setTranslate 0 0.08 0) (modelMatrix s)).
Proof.
  cbv zeta. split; [vm_compute; reflexivity |].
  split; [reflexivity |].
  intro H. destruct H as [_ [_ [_ [H _]]]].
  vm_compute in H. discriminate H.
Qed.

Lemma detectcollision_body_calls (s : State) (ci : nat) :
  exists t : option string,
    calls (detectcollision_body s ci) = calls s ++ callOf ci t.
Proof.
  destruct (detectcollision_body_cases s ci)
    as [[_ E] | [[_ [_ E]] | [[_ [_ E]] | [[_ [_ [_ E]]] | [_ [_ E]]]]]];
    rewrite E.
  1-4: eexists (Some _); apply processCollision_fields.
  exists None. cbn. now rewrite app_nil_r.
Qed.

(** ** The key handler *)

Lemma getChar_key (k : string) (w : nat) :
  k <> ""%string -> getChar (mkKeyboardEvent (Some k) w) = k.
Proof.
  intro H. unfold getChar; cbn [key].
  destruct (String.eqb k "") eqn:E; [| reflexivity].
  apply String.eqb_eq in E. contradiction.
Qed.

(** The state after a key, case by case on the string of the event. *)
Lemma handleKeyPress_cases (e : KeyboardEvent) (s : State) :
  let ch := getChar e in
  let s' := handleKeyPress e s in
  (ch = "r"%string /\ s' = set_click true (set_cindex 0 (console_log "r" s))) \/
  (ch = "g"%string /\ s' = set_click true (set_cindex 1 (console_log "g" s))) \/
  (ch = "b"%string /\ s' = set_click true (set_cindex 2 (console_log "b" s))) \/
  (ch = "w"%string /\ s' = set_click true (set_cindex 5 (console_log "w" s))) \/
  (ch = "ArrowUp"%string /\
   s' = set_click true
          (if JS.ltb (scale s) 1.5
           then set_scale (scale s + 0.1) (console_log "ArrowUp" s)
           else console_log "ArrowUp" s)) \/
  (ch = "ArrowDown"%string /\
   s' = set_click true
          (if JS.ltb 0.5 (scale s)
           then set_scale (scale s - 0.1) (console_log "ArrowDown" s)
           else console_log "ArrowDown" s)) \/
  (ch = "0"%string /\
   s' = set_click true (set_collisionMode 0 (console_log "0" s))) \/
  (ch = "1"%string /\
   s' = set_click true (set_collisionMode 1 (console_log "1" s))) \/
  (~ In ch handledKeys /\ s' = s).
Proof.
  cbv zeta. unfold handleKeyPress.
  generalize (getChar e) as ch. intro ch.
  destruct (String.eqb ch "r") eqn:Er;
    [apply String.eqb_eq in Er; auto | apply String.eqb_neq in Er].
  destruct (String.eqb ch "g") eqn:Eg;
    [apply String.eqb_eq in Eg; auto | apply String.eqb_neq in Eg].
  destruct (String.eqb ch "b") eqn:Eb;
    [apply String.eqb_eq in Eb; auto | apply String.eqb_neq in Eb].
  destruct (String.eqb ch "w") eqn:Ew;
    [apply String.eqb_eq in Ew; auto 6 | apply String.eqb_neq in Ew].
  destruct (String.eqb ch "ArrowUp") eqn:Eu;
    [apply String.eqb_eq in Eu; auto 7 | apply String.eqb_neq in Eu].
  destruct (String.eqb ch "ArrowDown") eqn:Ed;
    [apply String.eqb_eq in Ed; auto 8 | apply String.eqb_neq in Ed].
  destruct (String.eqb ch "0") eqn:E0;
    [apply String.eqb_eq in E0; auto 9 | apply String.eqb_neq in E0].
  destruct (String.eqb ch "1") eqn:E1;
    [apply String.eqb_eq in E1; auto 10 | apply String.eqb_neq in E1].
  do 8 right. split; [| reflexivity].
  unfold handledKeys. cbn [In]. intuition congruence.
Qed.

(** C10.  For a keydown event whose key, the string [getChar] reads from
    it, is none of "r", "g", "b", "w", "ArrowUp", "ArrowDown", "0", "1",
    [handleKeyPress] leaves the whole state as it was: [cindex], [scale],
    [collisionMode], [click] and every other variable. *)
Theorem handleKeyPress_other_key (e : KeyboardEvent) (s : State) :
  ~ In (getChar e) handledKeys -> handleKeyPress e s = s.
Proof.
  intro H.
  destruct (handleKeyPress_cases e s)
    as [[E _] | [[E _] | [[E _] | [[E _] | [[E _] | [[E _] | [[E _] |
        [[E _] | [_ E]]]]]]]]];
    [exfalso; apply H; rewrite E; cbn; auto 10 .. | exact E].
Qed.

Lemma handleKeyPress_other_key_witness :
  handleKeyPress (mkKeyboardEvent (Some "Escape"%string) 27) nearRightEdge
  = nearRightEdge.
Proof.
  apply handleKeyPress_other_key.
  cbn. intuition discriminate.
Defined.

(** ** Frames and runs *)

(** A property every call of [processCollision] keeps is kept by the
    loop body and by the whole check. *)
Lemma detectcollision_body_preserves_at (P : State -> Prop) (s : State)
    (ci : nat) :
  (forall p t, P (processCollision ci p t s)) ->
  P s -> P (detectcollision_body s ci).
Proof.
  intros HP Hs.
  destruct (detectcollision_body_cases s ci)
    as [[_ E] | [[_ [_ E]] | [[_ [_ E]] | [[_ [_ [_ E]]] | [_ [_ E]]]]]];
    rewrite E; auto.
Qed.

Lemma fold_body_preserves (P : State -> Prop) (l : list nat) :
  (forall ci p t s, In ci l -> P s -> P (processCollision ci p t s)) ->
  forall s, P s -> P (fold_left detectcollision_body l s).
Proof.
  induction l as [| ci l IH]; intros HP s Hs; cbn; [exact Hs |].
  apply IH; [intros; apply HP; [right |]; assumption |].
  apply detectcollision_body_preserves_at; [| exact Hs].
  intros p t. apply HP; [now left | exact Hs].
Qed.

Lemma detectcollision_preserves (P : State -> Prop) :
  (forall ci p t s,
     In ci cornerIndexes -> P s -> P (processCollision ci p t s)) ->
  forall s, P s -> P (detectcollision s).
Proof. intros HP s. now apply fold_body_preserves. Qed.

(** The variables the collision check never writes. *)
Lemma detectcollision_kept (s : State) :
  let s1 := detectcollision s in
  collisionMode s1 = collisionMode s /\ scale s1 = scale s /\
  projectionMatrix s1 = projectionMatrix s /\ console s1 = console s /\
  ang s1 = ang s /\ tx s1 = tx s /\ ty s1 = ty s /\
  currentCorner s1 = currentCorner s.
Proof.
  cbv zeta.
  apply (detectcollision_preserves
           (fun s1 => collisionMode s1 = collisionMode s /\
                      scale s1 = scale s /\
                      projectionMatrix s1 = projectionMatrix s /\
                      console s1 = console s /\
                      ang s1 = ang s /\ tx s1 = tx s /\ ty s1 = ty s /\
                      currentCorner s1 = currentCorner s)).
  - intros ci p t s1 _ H.
    pose proof (processCollision_fields ci p t s1) as F. cbv zeta in F.
    intuition congruence.
  - repeat split.
Qed.

(** The variables a frame writes, from the state after its collision
    check. *)
Lemma runanimation_fields (M : JS.Math) (s : State) :
  let s1 := detectcollision s in
  let s' := runanimation M s in
  cindex s' = cindex s1 /\ click s' = false /\
  collisionMode s' = collisionMode s /\ scale s' = scale s /\
  projectionMatrix s' = projectionMatrix s /\ console s' = console s /\
  increment s' = increment s1 /\ calls s' = calls s1 /\
  ang s' = JS.rem (ang s + increment s1) 360.
Proof.
  cbv zeta. pose proof (detectcollision_kept s) as K. cbv zeta in K.
  unfold runanimation, rotateAndScaleAboutCorner, reanchor.
  destruct (detectcollision s) as [ci ck mm pm cm sc an x y inc cc co ca].
  state_fields. destruct K as [Kc [Ks [Kp [Ko [Ka _]]]]].
  destruct ck; state_fields; subst;
    repeat apply conj; reflexivity.
Qed.

(** C3.  The collision check of a frame is the loop body run on the four
    tracked corners 0, 1, 2 and 5, in that order.  For each corner the body
    takes the first two coordinates of the vertex under the model matrix of
    that moment and compares them with [wsize/2 = 2.5]: it makes one call of
    [processCollision], for the first test that holds in the order left
    (x < -2.5), right (x > 2.5), bottom (y < -2.5), top (y > 2.5), and none
    when no test holds.  A frame runs the check once, so it adds at most
    one call per corner. *)
Theorem detectcollision_checks (s : State) :
  detectcollision s =
    detectcollision_body
      (detectcollision_body
         (detectcollision_body (detectcollision_body s 0) 1) 2) 5 /\
  (wsize / 2 == 2.5 /\ - wsize / 2 == - 2.5) /\
  (forall (s : State) (ci : nat),
     let v := getVertex ci in
     let p := Cuon.multiplyVector4 (modelMatrix s)
                (Cuon.mkVector4 (fst v) (snd v) 0.0 1.0) in
     let x := fst (getTransformedPosition ci s) in
     let y := snd (getTransformedPosition ci s) in
     let s' := detectcollision_body s ci in
     (x = Cuon.v0 p /\ y = Cuon.v1 p) /\
     ((x < - 2.5 /\ s' = processCollision ci (x, y) "left" s) \/
      (~ x < - 2.5 /\ 2.5 < x /\ s' = processCollision ci (x, y) "right" s) \/
      (~ x < - 2.5 /\ ~ 2.5 < x /\ y < - 2.5 /\
       s' = processCollision ci (x, y) "down" s) \/
      (~ x < - 2.5 /\ ~ 2.5 < x /\ ~ y < - 2.5 /\ 2.5 < y /\
       s' = processCollision ci (x, y) "up" s) \/
      (~ x < - 2.5 /\ ~ 2.5 < x /\ ~ y < - 2.5 /\ ~ 2.5 < y /\ s' = s))) /\
  (forall (ci : nat) (p : Q * Q) (t : string) (s : State),
     calls (processCollision ci p t s) = calls s ++ [(ci, t)]) /\
  (forall M : JS.Math, calls (runanimation M s) = calls (detectcollision s)) /\
  exists t0 t1 t2 t5 : option string,
    calls (detectcollision s) =
    calls s ++ callOf 0 t0 ++ callOf 1 t1 ++ callOf 2 t2 ++ callOf 5 t5.
Proof.
  split; [reflexivity |].
  split; [exact half_extent |].
  split; [| split; [| split]].
  - clear s. intros s ci. cbv zeta. split.
    + unfold getTransformedPosition; cbn [fst snd]. split; reflexivity.
    + pose proof (detectcollision_body_cases s ci) as C. cbv zeta in C.
      revert C.
      generalize (fst (getTransformedPosition ci s)) as x.
      generalize (snd (getTransformedPosition ci s)) as y.
      intros y x C. pose proof half_extent as [Hh Hl].
      set (h := wsize / 2) in *. set (l := - wsize / 2) in *. clearbody h l.
      destruct C as [[H1 E] | [[H1 [H2 E]] | [[[H1 H2] [H3 E]] |
        [[[H1 H2] [H3 [H4 E]]] | [[H1 H2] [[H3 H4] E]]]]]].
      * left. split; [lra | exact E].
      * right; left. repeat split; [lra | lra | exact E].
      * right; right; left. repeat split; [lra | lra | lra | exact E].
      * right; right; right; left.
        repeat split; [lra | lra | lra | lra | exact E].
      * right; right; right; right.
        repeat split; [lra | lra | lra | lra | exact E].
  - intros ci p t s1. apply processCollision_fields.
  - intro M. apply (runanimation_fields M s).
  - unfold detectcollision, cornerIndexes. cbn [fold_left].
    destruct (detectcollision_body_calls s 0) as [t0 E0].
    destruct (detectcollision_body_calls (detectcollision_body s 0) 1)
      as [t1 E1].
    destruct (detectcollision_body_calls
                (detectcollision_body (detectcollision_body s 0) 1) 2)
      as [t2 E2].
    destruct (detectcollision_body_calls
                (detectcollision_body
                   (detectcollision_body (detectcollision_body s 0) 1) 2) 5)
      as [t5 E5].
    exists t0, t1, t2, t5.
    rewrite E5, E2, E1, E0. now rewrite <- !app_assoc.
Qed.

(** Induction on the events of a run. *)
Lemma run_invariant (M : JS.Math) (P : State -> Prop) :
  P init ->
  (forall s ev, P s -> P (step M s ev)) ->
  forall evs, P (run M evs init).
Proof.
  intros H0 Hstep evs. unfold run.
  generalize dependent init. induction evs as [| ev evs IH]; intros s Hs.
  - exact Hs.
  - cbn. apply IH, Hstep, Hs.
Qed.

Lemma run_snoc (M : JS.Math) (evs : list Event) (ev : Event) (s : State) :
  run M (evs ++ [ev]) s = step M (run M evs s) ev.
Proof. unfold run. now rewrite fold_left_app. Qed.

(** ** The active corner *)

Lemma handleKeyPress_cindex (e : KeyboardEvent) (s : State) :
  cindex (handleKeyPress e s) = cindex s \/
  In (cindex (handleKeyPress e s)) cornerIndexes.
Proof.
  destruct (handleKeyPress_cases e s)
    as [[_ E] | [[_ E] | [[_ E] | [[_ E] | [[_ E] | [[_ E] | [[_ E] |
        [[_ E] | [_ E]]]]]]]]]; rewrite E; clear E.
  1-4: right; cbn; auto.
  - left. destruct (JS.ltb (scale s) 1.5); reflexivity.
  - left. destruct (JS.ltb 0.5 (scale s)); reflexivity.
  - left; reflexivity.
  - left; reflexivity.
  - left; reflexivity.
Qed.

Lemma detectcollision_cindex (s : State) :
  cindex (detectcollision s) = cindex s \/
  In (cindex (detectcollision s)) cornerIndexes.
Proof.
  apply (detectcollision_preserves
           (fun s1 => cindex s1 = cindex s \/ In (cindex s1) cornerIndexes));
    [| now left].
  intros ci p t s1 Hci H.
  pose proof (processCollision_fields ci p t s1) as F. cbv zeta in F.
  destruct F as [_ [_ [Fc _]]]. rewrite Fc.
  destruct (Nat.eqb (collisionMode s1) 0); [right |]; assumption.
Qed.

Lemma detectcollision_cindex_mode1 (s : State) :
  collisionMode s <> 0%nat -> cindex (detectcollision s) = cindex s.
Proof.
  intro Hm.
  apply (detectcollision_preserves
           (fun s1 => collisionMode s1 = collisionMode s /\
                      cindex s1 = cindex s));
    [| now split].
  intros ci p t s1 _ [H1 H2].
  pose proof (processCollision_fields ci p t s1) as F. cbv zeta in F.
  destruct F as [_ [_ [Fc [_ [_ [Fm _]]]]]]. rewrite Fc, Fm.
  apply Nat.eqb_neq in Hm. rewrite H1, Hm. now split.
Qed.

(** C9.  [cindex] is one of 0, 1, 2, 5 in every state of every run: it
    starts at 0; the key handler keeps it or assigns one of 0, 1, 2, 5; a
    call of [processCollision] assigns the colliding corner in mode 0 and
    keeps [cindex] otherwise; the collision check of a frame keeps it or
    assigns a tracked corner, and keeps it when the mode is not 0; the rest
    of the frame does not write it. *)
Theorem cindex_tracked (M : JS.Math) (evs : list Event) :
  In (cindex (run M evs init)) cornerIndexes /\
  cindex init = 0%nat /\
  (forall e s,
     cindex (handleKeyPress e s) = cindex s \/
     In (cindex (handleKeyPress e s)) cornerIndexes) /\
  (forall ci p t s,
     cindex (processCollision ci p t s) =
     if Nat.eqb (collisionMode s) 0 then ci else cindex s) /\
  (forall s,
     cindex (detectcollision s) = cindex s \/
     In (cindex (detectcollision s)) cornerIndexes) /\
  (forall s,
     collisionMode s <> 0%nat -> cindex (detectcollision s) = cindex s) /\
  (forall s, cindex (runanimation M s) = cindex (detectcollision s)).
Proof.
  split; [| split; [reflexivity | split; [exact handleKeyPress_cindex |
    split; [intros; apply processCollision_fields |
    split; [exact detectcollision_cindex |
    split; [exact detectcollision_cindex_mode1 |
            intro s; apply (runanimation_fields M s)]]]]]].
  apply (run_invariant M (fun s => In (cindex s) cornerIndexes)).
  - cbn. auto.
  - intros s [e |] H; cbn [step].
    + destruct (handleKeyPress_cindex e s) as [E | E];
        [rewrite E |]; assumption.
    + pose proof (runanimation_fields M s) as F. cbv zeta in F.
      destruct F as [F _]. rewrite F.
      destruct (detectcollision_cindex s) as [E | E];
        [rewrite E |]; assumption.
Qed.

(** ** The scale factor *)

Lemma handleKeyPress_scale (e : KeyboardEvent) (s : State) :
  let s' := handleKeyPress e s in
  (getChar e = "ArrowUp"%string /\
   (scale s < 1.5 -> scale s' = scale s + 0.1) /\
   (1.5 <= scale s -> scale s' = scale s)) \/
  (getChar e = "ArrowDown"%string /\
   (0.5 < scale s -> scale s' = scale s - 0.1) /\
   (scale s <= 0.5 -> scale s' = scale s)) \/
  (getChar e <> "ArrowUp"%string /\ getChar e <> "ArrowDown"%string /\
   scale s' = scale s).
Proof.
  cbv zeta.
  destruct (handleKeyPress_cases e s)
    as [[K E] | [[K E] | [[K E] | [[K E] | [[K E] | [[K E] | [[K E] |
        [[K E] | [K E]]]]]]]]]; rewrite E; clear E.
  1-4, 7-8: right; right; rewrite K;
    split; [discriminate | split; [discriminate | reflexivity]].
  - left. split; [exact K |].
    destruct (JS.ltb (scale s) 1.5) eqn:L; state_fields.
    + apply JS_ltb_lt in L. split; [reflexivity | intro; exfalso; lra].
    + apply JS_ltb_ge in L. split; [intro; exfalso; lra | reflexivity].
  - right; left. split; [exact K |].
    destruct (JS.ltb 0.5 (scale s)) eqn:L; state_fields.
    + apply JS_ltb_lt in L. split; [reflexivity | intro; exfalso; lra].
    + apply JS_ltb_ge in L. split; [intro; exfalso; lra | reflexivity].
  - right; right. unfold handledKeys in K. cbn [In] in K.
    split; [| split; [| reflexivity]]; intro H; apply K; rewrite H; auto 10.
Qed.

Lemma scaleOnGrid_bounds (s : State) :
  scaleOnGrid s -> 0.5 <= scale s /\ scale s <= 1.5.
Proof.
  intros [k [[Hl Hu] E]].
  rewrite Zle_Qle in Hl, Hu. rewrite E.
  change (inject_Z (-5)) with (- (5)) in Hl. change (inject_Z 5) with 5 in Hu.
  split; lra.
Qed.

Lemma scaleOnGrid_init : scaleOnGrid init.
Proof. exists 0%Z. split; [lia | reflexivity]. Qed.

Lemma scaleOnGrid_step (M : JS.Math) (s : State) (ev : Event) :
  scaleOnGrid s -> scaleOnGrid (step M s ev).
Proof.
  intros [k [[Hl Hu] E]]. destruct ev as [e |]; cbn [step].
  - pose proof (handleKeyPress_scale e s) as C. cbv zeta in C.
    destruct C as [[_ [Hlt Hge]] | [[_ [Hlt Hge]] | [_ [_ Hs]]]].
    + destruct (Qlt_le_dec (scale s) 1.5) as [L | L].
      * exists (k + 1)%Z. rewrite (Hlt L), inject_Z_plus, E.
        split; [| change (inject_Z 1) with 1; ring].
        rewrite E in L.
        assert (inject_Z k < inject_Z 5) as Hk
          by (change (inject_Z 5) with 5; lra).
        rewrite <- Zlt_Qlt in Hk. lia.
      * exists k. rewrite (Hge L). split; [lia | exact E].
    + destruct (Qlt_le_dec 0.5 (scale s)) as [L | L].
      * exists (k + -1)%Z. rewrite (Hlt L), inject_Z_plus, E.
        split; [| change (inject_Z (-1)) with (- (1)); ring].
        rewrite E in L.
        assert (inject_Z (-5) < inject_Z k) as Hk
          by (change (inject_Z (-5)) with (- (5)); lra).
        rewrite <- Zlt_Qlt in Hk. lia.
      * exists k. rewrite (Hge L). split; [lia | exact E].
    + exists k. rewrite Hs. split; [lia | exact E].
  - exists k. pose proof (runanimation_fields M s) as F. cbv zeta in F.
    destruct F as [_ [_ [_ [F _]]]]. rewrite F. split; [lia | exact E].
Qed.

(** C8.  With exact rational numbers the scale factor stays within
    [0.5, 1.5] in every run: it starts at 1.0; "ArrowUp" adds 0.1 when the
    scale is below 1.5 and changes nothing otherwise; "ArrowDown" subtracts
    0.1 when the scale is above 0.5 and changes nothing otherwise; no other
    key and no frame writes it. *)
Theorem scale_bounded (M : JS.Math) (evs : list Event) :
  (0.5 <= scale (run M evs init) /\ scale (run M evs init) <= 1.5) /\
  scale init = 1.0 /\
  (forall e s,
     getChar e = "ArrowUp"%string ->
     (scale s < 1.5 -> scale (handleKeyPress e s) = scale s + 0.1) /\
     (1.5 <= scale s -> scale (handleKeyPress e s) = scale s)) /\
  (forall e s,
     getChar e = "ArrowDown"%string ->
     (0.5 < scale s -> scale (handleKeyPress e s) = scale s - 0.1) /\
     (scale s <= 0.5 -> scale (handleKeyPress e s) = scale s)) /\
  (forall e s,
     getChar e <> "ArrowUp"%string -> getChar e <> "ArrowDown"%string ->
     scale (handleKeyPress e s) = scale s) /\
  (forall s, scale (runanimation M s) = scale s).
Proof.
  split; [| split; [reflexivity | split; [| split; [| split]]]].
  - apply scaleOnGrid_bounds.
    apply (run_invariant M scaleOnGrid);
      [exact scaleOnGrid_init | exact (scaleOnGrid_step M)].
  - intros e s K. pose proof (handleKeyPress_scale e s) as C. cbv zeta in C.
    destruct C as [[_ C] | [[K' _] | [K' _]]];
      [exact C | rewrite K in K'; discriminate | contradiction].
  - intros e s K. pose proof (handleKeyPress_scale e s) as C. cbv zeta in C.
    destruct C as [[K' _] | [[_ C] | [_ [K' _]]]];
      [rewrite K in K'; discriminate | exact C | contradiction].
  - intros e s Ku Kd. pose proof (handleKeyPress_scale e s) as C.
    cbv zeta in C.
    destruct C as [[K' _] | [[K' _] | [_ [_ C]]]];
      [contradiction | contradiction | exact C].
  - intro s. apply (runanimation_fields M s).
Qed.

Lemma scale_bounded_witness :
  let up := KeyDown (mkKeyboardEvent (Some "ArrowUp"%string) 38) in
  let s := run sampleMath [up; up; up; up; up; up; AnimationFrame] init in
  0.5 <= scale s /\ scale s <= 1.5.
Proof.
  cbv zeta. refine (proj1 (scale_bounded sampleMath _)).
Defined.

(** ** Geometry *)

(** C7.  The vertex buffer holds 6 vertices of two coordinates each
    ([numPoints = 6]); drawn three by three they are two triangles, which
    together cover exactly the square [-0.5, 0.5] x [-0.5, 0.5]; the color
    buffer holds 6 colors of four components, one per vertex. *)
Theorem square_geometry :
  List.length vertices = (2 * 6)%nat /\
  numPoints = 6%nat /\
  List.length colors = (4 * numPoints)%nat /\
  triangles =
    [ ((-0.5, -0.5), (0.5, -0.5), (0.5, 0.5));
      ((-0.5, -0.5), (0.5, 0.5), (-0.5, 0.5)) ] /\
  forall p : Q * Q, inSquare p <-> Exists (fun t => inTriangle t p) triangles.
Proof.
  split; [reflexivity | split; [reflexivity | split; [reflexivity |
    split; [reflexivity |]]]].
  intros [x y].
  change triangles with
    [ ((-0.5, -0.5), (0.5, -0.5), (0.5, 0.5));
      ((-0.5, -0.5), (0.5, 0.5), (-0.5, 0.5)) ].
  rewrite !Exists_cons, Exists_nil.
  unfold inSquare, inTriangle, edge; cbn [fst snd].
  split.
  - intros [[Hx1 Hx2] [Hy1 Hy2]].
    destruct (Qlt_le_dec x y) as [L | L]; [right; left | left];
      repeat apply conj; lra.
  - intros [[H1 [H2 H3]] | [[H1 [H2 H3]] | []]];
      repeat apply conj; lra.
Qed.

(** ** Re-anchoring *)

Lemma pivotTransform_Meq (M : JS.Math) (k ang x y x' y' tx ty : Q) :
  x == x' -> y == y' ->
  Cuon.Meq (pivotTransform M k ang x y tx ty)
    (pivotTransform M k ang x' y' tx ty).
Proof.
  intros Hx Hy. unfold pivotTransform.
  repeat apply concat_Meq; try reflexivity;
    apply setTranslate_Meq; try reflexivity; try assumption.
  - now rewrite Hx.
  - now rewrite Hy.
Qed.

(** The collision check leaves a pending re-anchoring pending, and when
    none is pending after it, it has not written [cindex]. *)
Lemma detectcollision_click (s : State) :
  let s1 := detectcollision s in
  (click s = true -> click s1 = true) /\
  (click s1 = false -> click s = false /\ cindex s1 = cindex s).
Proof.
  cbv zeta.
  apply (detectcollision_preserves
           (fun s1 => (click s = true -> click s1 = true) /\
                      (click s1 = false ->
                       click s = false /\ cindex s1 = cindex s)));
    [| now auto].
  intros ci p t s1 _ [H1 H2].
  pose proof (processCollision_fields ci p t s1) as F. cbv zeta in F.
  destruct F as [_ [_ [Fc [Fk _]]]]. rewrite Fc, Fk.
  destruct (Nat.eqb (collisionMode s1) 0); [| now auto].
  split; [reflexivity | discriminate].
Qed.

(** What a frame does to the pivot and the translation. *)
Lemma runanimation_anchor (M : JS.Math) (s : State) :
  let s1 := detectcollision s in
  let s' := runanimation M s in
  let v := getVertex (cindex s1) in
  let c := Cuon.multiplyVector4 (modelMatrix s1)
             (Cuon.mkVector4 (fst v) (snd v) (Cuon.v2 (currentCorner s))
                (Cuon.v3 (currentCorner s))) in
  (click s1 = true ->
   currentCorner s' = c /\ tx s' = Cuon.v0 c - fst v /\
   ty s' = Cuon.v1 c - snd v) /\
  (click s1 = false ->
   currentCorner s' = currentCorner s /\ tx s' = tx s /\ ty s' = ty s).
Proof.
  cbv zeta. pose proof (detectcollision_kept s) as K. cbv zeta in K.
  unfold runanimation, rotateAndScaleAboutCorner, reanchor.
  destruct (detectcollision s) as [ci ck mm pm cm sc an x y inc cc co ca].
  state_fields. destruct K as [_ [_ [_ [_ [_ [Kx [Ky Kc]]]]]]].
  destruct ck; state_fields; subst;
    (split; [intro | intro]; try discriminate);
    repeat apply conj; reflexivity.
Qed.

Lemma Qeq_add_sub (a b : Q) : a == b + (a - b).
Proof. ring. Qed.

Lemma anchored_init : anchored init.
Proof. intros _. cbn. split; reflexivity. Qed.

Lemma anchored_handleKeyPress (e : KeyboardEvent) (s : State) :
  anchored s -> anchored (handleKeyPress e s).
Proof.
  intro H.
  destruct (handleKeyPress_cases e s)
    as [[_ E] | [[_ E] | [[_ E] | [[_ E] | [[_ E] | [[_ E] | [[_ E] |
        [[_ E] | [_ E]]]]]]]]]; rewrite E; try exact H;
    intro C; exfalso; revert C;
    repeat match goal with |- context [if ?b then _ else _] => destruct b end;
    discriminate.
Qed.

Lemma anchored_runanimation (M : JS.Math) (s : State) :
  anchored s -> anchored (runanimation M s).
Proof.
  intros H _.
  pose proof (runanimation_fields M s) as F. cbv zeta in F.
  destruct F as [Fc _]. rewrite Fc.
  pose proof (runanimation_anchor M s) as [A1 A0].
  destruct (click (detectcollision s)) eqn:E.
  - destruct (A1 eq_refl) as [Ec [Ex Ey]]. rewrite Ec, Ex, Ey.
    split; apply Qeq_add_sub.
  - destruct (A0 eq_refl) as [Ec [Ex Ey]]. rewrite Ec, Ex, Ey.
    pose proof (detectcollision_click s) as [_ C]. cbv zeta in C.
    destruct (C E) as [Ck Ci]. rewrite Ci. exact (H Ck).
Qed.

Lemma anchored_run (M : JS.Math) (evs : list Event) :
  anchored (run M evs init).
Proof.
  apply (run_invariant M anchored); [exact anchored_init |].
  intros s [e |] H; cbn [step];
    [now apply anchored_handleKeyPress | now apply anchored_runanimation].
Qed.

(** A frame leaves the model matrix that its pivot, angle, scale and
    translation give. *)
Lemma runanimation_matrix (M : JS.Math) (s : State) :
  let s' := runanimation M s in
  Cuon.Meq (modelMatrix s')
    (pivotTransform M (scale s') (ang s')
       (Cuon.v0 (currentCorner s')) (Cuon.v1 (currentCorner s'))
       (tx s') (ty s')).
Proof.
  cbv zeta. unfold runanimation. cbv zeta.
  lazymatch goal with
  | |- context [rotateAndScaleAboutCorner M _ _ _ _ _ ?s2] =>
      generalize s2
  end.
  intros [ci ck mm pm cm sc an x y inc cc co ca].
  rewrite rotateAndScaleAboutCorner_matrix.
  unfold rotateAndScaleAboutCorner. state_fields. reflexivity.
Qed.

Lemma projectionMatrix_handleKeyPress (e : KeyboardEvent) (s : State) :
  projectionMatrix (handleKeyPress e s) = projectionMatrix s.
Proof.
  destruct (handleKeyPress_cases e s)
    as [[_ E] | [[_ E] | [[_ E] | [[_ E] | [[_ E] | [[_ E] | [[_ E] |
        [[_ E] | [_ E]]]]]]]]]; rewrite E;
    repeat match goal with
           | |- context [if ?b then _ else _] => destruct b
           end; reflexivity.
Qed.

Lemma projectionMatrix_runanimation (M : JS.Math) (s : State) :
  projectionMatrix (runanimation M s) = projectionMatrix s.
Proof. apply (runanimation_fields M s). Qed.

(** C5, as the code has it.  The model matrix is built anew in every
    frame, from any state, out of the angle, the scale, the pivot and the
    translation the frame ends with; after every frame of every run it is
    the matrix the scalars of the state determine (angle, scale,
    translation and active corner: the pivot is the vertex [cindex] moved by
    the translation).  The projection matrix is not built in a frame: it is
    set once, when the script loads, to the orthographic projection of the
    viewport, a frame and a key keep the projection matrix they find, and
    so it is that projection in every state of every run; the transform a
    frame draws with is that projection times the model matrix. *)
Theorem frame_matrices (M : JS.Math) (evs : list Event) :
  let s' := runanimation M (run M evs init) in
  let ortho :=
    Cuon.setOrtho (- wsize / 2) (wsize / 2) (- wsize / 2) (wsize / 2) 0 1 in
  let model :=
    frameMatrix M (ang s') (scale s') (tx s') (ty s') (cindex s') in
  Cuon.Meq (modelMatrix s') model /\
  (forall s : State,
     let t := runanimation M s in
     Cuon.Meq (modelMatrix t)
       (pivotTransform M (scale t) (ang t)
          (Cuon.v0 (currentCorner t)) (Cuon.v1 (currentCorner t))
          (tx t) (ty t))) /\
  (forall s : State,
     projectionMatrix (runanimation M s) = projectionMatrix s) /\
  (forall (e : KeyboardEvent) (s : State),
     projectionMatrix (handleKeyPress e s) = projectionMatrix s) /\
  projectionMatrix init = ortho /\
  projectionMatrix s' = ortho /\
  Cuon.Meq (draw s') (Cuon.multiply ortho model).
Proof.
  cbv zeta.
  assert (Hm : Cuon.Meq (modelMatrix (runanimation M (run M evs init)))
                 (frameMatrix M (ang (runanimation M (run M evs init)))
                    (scale (runanimation M (run M evs init)))
                    (tx (runanimation M (run M evs init)))
                    (ty (runanimation M (run M evs init)))
                    (cindex (runanimation M (run M evs init))))).
  { rewrite runanimation_matrix. unfold frameMatrix.
    pose proof (anchored_runanimation M _ (anchored_run M evs)) as A.
    pose proof (runanimation_fields M (run M evs init)) as F.
    cbv zeta in F. destruct F as [_ [Fk _]].
    destruct (A Fk) as [Ax Ay].
    apply pivotTransform_Meq; assumption. }
  assert (Hp : projectionMatrix (runanimation M (run M evs init)) =
               Cuon.setOrtho (- wsize / 2) (wsize / 2) (- wsize / 2)
                 (wsize / 2) 0 1).
  { change (Cuon.setOrtho (- wsize / 2) (wsize / 2) (- wsize / 2)
              (wsize / 2) 0 1) with (projectionMatrix init).
    change (runanimation M (run M evs init))
      with (step M (run M evs init) AnimationFrame).
    rewrite <- run_snoc.
    apply (run_invariant M
             (fun s => projectionMatrix s = projectionMatrix init));
      [reflexivity |].
    intros s [e |] H; cbn [step].
    - now rewrite projectionMatrix_handleKeyPress.
    - now rewrite projectionMatrix_runanimation. }
  split; [exact Hm |].
  split; [intro s; exact (runanimation_matrix M s) |].
  split; [exact (projectionMatrix_runanimation M) |].
  split; [exact projectionMatrix_handleKeyPress |].
  split; [reflexivity |].
  split; [exact Hp |].
  unfold draw. rewrite Hp. unfold Cuon.multiply.
  apply concat_Meq; [reflexivity | exact Hm].
Qed.

(** C5 as stated fails for the projection matrix: a frame does not compute
    it.  [identityProjection] has the scalars of [init] and the identity as
    its projection matrix; after a frame the two states have the same
    scalars and the same model matrix, and each still has the projection
    matrix it started with. *)
Lemma projection_not_recomputed :
  let s := runanimation sampleMath init in
  let s' := runanimation sampleMath identityProjection in
  (ang s' = ang s /\ scale s' = scale s /\ tx s' = tx s /\ ty s' = ty s /\
   cindex s' = cindex s) /\
  modelMatrix s' = modelMatrix s /\
  projectionMatrix s' = Cuon.identity /\
  ~ Cuon.Meq (projectionMatrix s') (projectionMatrix s).
Proof.
  cbv zeta.
  split; [repeat apply conj; reflexivity |].
  split; [reflexivity |].
  split; [reflexivity |].
  intros [[H _] _]. vm_compute in H. discriminate H.
Qed.

(** ** Well-formed states *)

Lemma affine_multiply_setTranslate (dx dy : Q) (m : Cuon.Matrix4) :
  affine m -> affine (Cuon.multiply (Cuon.setTranslate dx dy 0) m).
Proof.
  unfold affine. intros [[H2 [H6 [H10 H14]]] [H3 [H7 [H11 H15]]]].
  unfold Cuon.multiply, Cuon.concat, Cuon.setTranslate.
  cbn [Cuon.e0 Cuon.e1 Cuon.e2 Cuon.e3 Cuon.e4 Cuon.e5 Cuon.e6 Cuon.e7
       Cuon.e8 Cuon.e9 Cuon.e10 Cuon.e11 Cuon.e12 Cuon.e13 Cuon.e14
       Cuon.e15].
  rewrite H2, H6, H10, H14, H3, H7, H11, H15.
  repeat apply conj; ring.
Qed.

Lemma affine_identity : affine Cuon.identity.
Proof. unfold affine, Cuon.identity; cbn. repeat apply conj; reflexivity. Qed.

Lemma affine_translateMatrix (t : string) (m : Cuon.Matrix4) :
  affine m -> affine (Cuon.multiply (translateMatrix t) m).
Proof.
  intro H. unfold translateMatrix.
  repeat match goal with
         | |- context [if ?b then _ else _] => destruct b
         end;
    try (change Cuon.identity with (Cuon.setTranslate 0 0 0));
    now apply affine_multiply_setTranslate.
Qed.

Lemma affine_Meq (a b : Cuon.Matrix4) : Cuon.Meq a b -> affine b -> affine a.
Proof.
  unfold Cuon.Meq, affine.
  intros [[_ [_ [E2 E3]]] [[_ [_ [E6 E7]]] [[_ [_ [E10 E11]]]
          [_ [_ [E14 E15]]]]]].
  rewrite E2, E3, E6, E7, E10, E11, E14, E15. trivial.
Qed.

Lemma affine_concat (a b : Cuon.Matrix4) :
  affine a -> affine b -> affine (Cuon.concat a b).
Proof.
  unfold affine.
  intros [[A2 [A6 [A10 A14]]] [A3 [A7 [A11 A15]]]]
         [[B2 [B6 [B10 B14]]] [B3 [B7 [B11 B15]]]].
  unfold Cuon.concat.
  cbn [Cuon.e0 Cuon.e1 Cuon.e2 Cuon.e3 Cuon.e4 Cuon.e5 Cuon.e6 Cuon.e7
       Cuon.e8 Cuon.e9 Cuon.e10 Cuon.e11 Cuon.e12 Cuon.e13 Cuon.e14
       Cuon.e15].
  rewrite A2, A6, A10, A14, A3, A7, A11, A15, B2, B6, B10, B14, B3, B7, B11,
    B15.
  repeat apply conj; ring.
Qed.

Lemma affine_setTranslate (x y : Q) : affine (Cuon.setTranslate x y 0).
Proof. unfold affine; cbn. repeat apply conj; reflexivity. Qed.

Lemma affine_setScale (k : Q) : affine (Cuon.setScale k k 1).
Proof. unfold affine; cbn. repeat apply conj; reflexivity. Qed.

Lemma affine_setRotateZ (M : JS.Math) (a : Q) : affine (Cuon.setRotateZ M a).
Proof. unfold affine; cbn. repeat apply conj; reflexivity. Qed.

Lemma affine_pivotTransform (M : JS.Math) (k ang x y tx ty : Q) :
  affine (pivotTransform M k ang x y tx ty).
Proof.
  unfold pivotTransform.
  repeat apply affine_concat;
    first [apply affine_setTranslate | apply affine_setScale
          | apply affine_setRotateZ].
Qed.

Lemma wellFormed_detectcollision (s : State) :
  wellFormed s -> wellFormed (detectcollision s).
Proof.
  apply (detectcollision_preserves wellFormed).
  intros ci p t s1 _ [Ha Hc].
  pose proof (processCollision_fields ci p t s1) as F. cbv zeta in F.
  destruct F as [Fm [_ [_ [_ [_ [_ [_ [_ [_ [Fc _]]]]]]]]]].
  unfold wellFormed. rewrite Fm, Fc.
  split; [now apply affine_translateMatrix | exact Hc].
Qed.

Lemma wellFormed_handleKeyPress (e : KeyboardEvent) (s : State) :
  wellFormed s -> wellFormed (handleKeyPress e s).
Proof.
  intro H.
  destruct (handleKeyPress_cases e s)
    as [[_ E] | [[_ E] | [[_ E] | [[_ E] | [[_ E] | [[_ E] | [[_ E] |
        [[_ E] | [_ E]]]]]]]]]; rewrite E; try exact H;
    repeat match goal with
           | |- context [if ?b then _ else _] => destruct b
           end; exact H.
Qed.

(** With an affine matrix the last two coordinates of a transformed
    vector are those of the vector. *)
Lemma multiplyVector4_affine (m : Cuon.Matrix4) (p : Cuon.Vector4) :
  affine m ->
  Cuon.v2 (Cuon.multiplyVector4 m p) == Cuon.v2 p /\
  Cuon.v3 (Cuon.multiplyVector4 m p) == Cuon.v3 p.
Proof.
  intros [[H2 [H6 [H10 H14]]] [H3 [H7 [H11 H15]]]].
  unfold Cuon.multiplyVector4; cbn [Cuon.v2 Cuon.v3].
  rewrite H2, H6, H10, H14, H3, H7, H11, H15. split; ring.
Qed.

Lemma wellFormed_runanimation (M : JS.Math) (s : State) :
  wellFormed s -> wellFormed (runanimation M s).
Proof.
  intro H. pose proof (wellFormed_detectcollision s H) as [Ha1 _].
  destruct H as [_ [Hz Hw]].
  split.
  - apply (affine_Meq _ _ (runanimation_matrix M s)).
    apply affine_pivotTransform.
  - pose proof (runanimation_anchor M s) as [A1 A0].
    destruct (click (detectcollision s)) eqn:E.
    + destruct (A1 eq_refl) as [Ec _]. rewrite Ec.
      destruct (multiplyVector4_affine (modelMatrix (detectcollision s))
                  (Cuon.mkVector4
                     (fst (getVertex (cindex (detectcollision s))))
                     (snd (getVertex (cindex (detectcollision s))))
                     (Cuon.v2 (currentCorner s))
                     (Cuon.v3 (currentCorner s))) Ha1) as [Z W].
      rewrite Z, W. cbn [Cuon.v2 Cuon.v3]. now split.
    + destruct (A0 eq_refl) as [Ec _]. rewrite Ec. now split.
Qed.

Lemma wellFormed_init : wellFormed init.
Proof.
  split; [exact affine_identity | split; reflexivity].
Qed.

(** Every state of every run is well formed. *)
Lemma wellFormed_run (M : JS.Math) (evs : list Event) :
  wellFormed (run M evs init).
Proof.
  apply (run_invariant M wellFormed); [exact wellFormed_init |].
  intros s [e |] H; cbn [step];
    [now apply wellFormed_handleKeyPress | now apply wellFormed_runanimation].
Qed.

(** ** Keys that select the pivot *)

(** What the collision check of a frame does to [cindex], read off the
    calls it makes: with no call [cindex] is kept; in mode 0 the corner of
    the last call becomes [cindex]. *)
Lemma detectcollision_calls_cindex (s : State) :
  let s1 := detectcollision s in
  (exists l, calls s1 = calls s ++ l) /\
  (calls s1 = calls s -> cindex s1 = cindex s) /\
  collisionMode s1 = collisionMode s /\
  (collisionMode s = 0%nat ->
   forall l ci t, calls s1 = calls s ++ l ++ [(ci, t)] -> cindex s1 = ci).
Proof.
  cbv zeta.
  apply (detectcollision_preserves
           (fun s1 =>
              (exists l, calls s1 = calls s ++ l) /\
              (calls s1 = calls s -> cindex s1 = cindex s) /\
              collisionMode s1 = collisionMode s /\
              (collisionMode s = 0%nat ->
               forall l ci t,
                 calls s1 = calls s ++ l ++ [(ci, t)] -> cindex s1 = ci))).
  - intros ci p t s1 _ [[l0 Hl] [_ [Hm _]]].
    pose proof (processCollision_fields ci p t s1) as F. cbv zeta in F.
    destruct F as [_ [Fa [Fc [_ [_ [Fm _]]]]]].
    rewrite Fa, Fc, Fm, Hl, Hm, <- app_assoc.
    split; [now exists (l0 ++ [(ci, t)]) |].
    split; [| split; [reflexivity |]].
    + intro E. exfalso.
      rewrite <- (app_nil_r (calls s)) in E at 2.
      apply app_inv_head in E. now destruct l0.
    + intros H0 l ci' t' E. rewrite H0. cbn.
      apply app_inv_head in E. apply app_inj_tail in E.
      destruct E as [_ E]. now inversion E.
  - split; [exists []; now rewrite app_nil_r |].
    split; [reflexivity | split; [reflexivity |]].
    intros _ l ci t E. exfalso.
    rewrite <- (app_nil_r (calls s)) in E at 1.
    apply app_inv_head in E. now destruct l.
Qed.

Lemma multiplyVector4_point (m : Cuon.Matrix4) (vx vy cz cw : Q) :
  cz == 0 -> cw == 1 ->
  Cuon.v0 (Cuon.multiplyVector4 m (Cuon.mkVector4 vx vy cz cw)) ==
  Cuon.v0 (Cuon.multiplyVector4 m (Cuon.mkVector4 vx vy 0.0 1.0)) /\
  Cuon.v1 (Cuon.multiplyVector4 m (Cuon.mkVector4 vx vy cz cw)) ==
  Cuon.v1 (Cuon.multiplyVector4 m (Cuon.mkVector4 vx vy 0.0 1.0)).
Proof.
  intros Hz Hw. destruct m.
  unfold Cuon.multiplyVector4.
  cbn [Cuon.v0 Cuon.v1 Cuon.v2 Cuon.v3 Cuon.e0 Cuon.e1 Cuon.e4 Cuon.e5
       Cuon.e8 Cuon.e9 Cuon.e12 Cuon.e13].
  rewrite Hz, Hw. split; ring.
Qed.

(** C6, as the code has it.  Pressing "r", "g", "b" or "w" sets [cindex]
    to 0, 1, 2 or 5 and sets [click].  The next frame, after its collision
    check, takes the pivot and the translation [(tx, ty)] anew from the
    vertex [cindex] then names, under the model matrix of that moment, and
    clears [click].  That vertex is the selected one when the mode is not 0
    or the check makes no call; in mode 0 it is the corner of the last call
    of the check. *)
Theorem key_reanchors (M : JS.Math) (s0 : State) (k : string) (w i : nat) :
  wellFormed s0 ->
  In (k, i) cornerKeys ->
  let s := handleKeyPress (mkKeyboardEvent (Some k) w) s0 in
  let s1 := detectcollision s in
  let s' := runanimation M s in
  let v := getVertex (cindex s1) in
  let p := getTransformedPosition (cindex s1) s1 in
  (cindex s = i /\ click s = true) /\
  (cindex s' = cindex s1 /\ click s' = false /\
   Cuon.v0 (currentCorner s') == fst p /\
   Cuon.v1 (currentCorner s') == snd p /\
   tx s' == fst p - fst v /\ ty s' == snd p - snd v) /\
  (collisionMode s0 <> 0%nat \/ calls s1 = calls s -> cindex s1 = i) /\
  (collisionMode s0 = 0%nat ->
   forall l ci t, calls s1 = calls s ++ l ++ [(ci, t)] -> cindex s1 = ci).
Proof.
  intros Hwf Hk s.
  assert (Hs : cindex s = i /\ click s = true /\
               collisionMode s = collisionMode s0 /\ wellFormed s).
  { unfold s, cornerKeys in *. cbn [In] in Hk.
    destruct Hk as [E | [E | [E | [E | []]]]]; inversion E; subst;
      (split; [reflexivity | split; [reflexivity | split; [reflexivity |]]]);
      now apply wellFormed_handleKeyPress. }
  destruct Hs as [Hi [Hc [Hm Hw]]]. clearbody s. cbv zeta.
  split; [now split |].
  pose proof (runanimation_fields M s) as F. cbv zeta in F.
  destruct F as [Fi [Fk _]].
  pose proof (detectcollision_click s) as [Ck _]. cbv zeta in Ck.
  pose proof (runanimation_anchor M s) as [A _]. cbv zeta in A.
  destruct (A (Ck Hc)) as [Ec [Ex Ey]].
  pose proof (detectcollision_calls_cindex s) as [_ [N [_ L]]].
  cbv zeta in N, L.
  split; [| split].
  - split; [exact Fi | split; [exact Fk |]].
    rewrite Ex, Ey, Ec. destruct Hw as [_ [Hz Hw]].
    unfold getTransformedPosition. cbn [fst snd].
    destruct (multiplyVector4_point (modelMatrix (detectcollision s))
                (fst (getVertex (cindex (detectcollision s))))
                (snd (getVertex (cindex (detectcollision s))))
                _ _ Hz Hw) as [P0 P1].
    rewrite P0, P1. repeat apply conj; reflexivity.
  - intros [H | H]; [| now rewrite (N H)].
    rewrite <- Hm in H.
    now rewrite (detectcollision_cindex_mode1 s H).
  - intro H. apply L. now rewrite Hm.
Qed.

Lemma key_reanchors_witness :
  let s := handleKeyPress (mkKeyboardEvent (Some "w"%string) 87)
             nearRightEdge1 in
  cindex (detectcollision s) = 5%nat.
Proof.
  cbv zeta.
  refine (proj1 (proj2 (proj2
            (key_reanchors sampleMath nearRightEdge1 "w" 87 5 _ _))) _).
  - split; [| split; reflexivity].
    unfold affine; cbn. repeat apply conj; reflexivity.
  - cbn. auto.
  - left. discriminate.
Defined.

(** C6 as stated fails when the frame after the key has a collision in
    mode 0: at [nearRightEdge] the key "w" selects the corner 5, the next
    frame finds the corners 1 and 2 beyond the right edge, and the pivot is
    taken from the vertex 2, at (2.44, 0.5); the vertex 5 is at (1.6, 0.5)
    under the model matrix before that frame and at (1.44, 0.5) under the
    one after its collision check. *)
Lemma key_overridden_by_collision :
  let s := handleKeyPress (mkKeyboardEvent (Some "w"%string) 87)
             nearRightEdge in
  let s' := runanimation sampleMath s in
  (cindex s = 5%nat /\ click s = true) /\
  cindex s' = 2%nat /\
  (Cuon.v0 (currentCorner s') == 2.44 /\
   Cuon.v1 (currentCorner s') == 0.5) /\
  fst (getTransformedPosition 5 s) == 1.6 /\
  fst (getTransformedPosition 5 (detectcollision s)) == 1.44.
Proof.
  cbv zeta. vm_compute. repeat apply conj; reflexivity.
Qed.

(** ** The two copies of the collision code agree *)

Lemma Part000_body_agrees (s : State) (ci : nat) :
  Part000.detectCollision_body (Some s) ci = Some (detectcollision_body s ci).
Proof.
  unfold Part000.detectCollision_body, detectcollision_body.
  cbv zeta.
  change (- (wsize / 2)) with (- wsize / 2).
  destruct (JS.ltb (fst (getTransformedPosition ci s)) (- wsize / 2));
    [reflexivity |].
  destruct (JS.ltb (wsize / 2) (fst (getTransformedPosition ci s)));
    [reflexivity |].
  destruct (JS.ltb (snd (getTransformedPosition ci s)) (- wsize / 2));
    [reflexivity |].
  destruct (JS.ltb (wsize / 2) (snd (getTransformedPosition ci s)));
    reflexivity.
Qed.

(** [detectCollision] of the second copy never fails and leaves the state
    [detectcollision] leaves. *)
Lemma Part000_detectCollision_agrees (s : State) :
  Part000.detectCollision s = Some (detectcollision s).
Proof.
  unfold Part000.detectCollision, detectcollision, Part000.cornersIndexes,
    cornerIndexes.
  cbn [fold_left]. now rewrite !Part000_body_agrees.
Qed.

(** ** Tests *)

Example rem_positive : JS.rem 362 360 == 2.
Proof. reflexivity. Qed.

Example rem_negative : JS.rem (- 362) 360 == - 2.
Proof. reflexivity. Qed.

Example rem_fraction : JS.rem 721.5 360 == 1.5.
Proof. reflexivity. Qed.

Example getChar_modern : getChar (mkKeyboardEvent (Some "ArrowUp"%string) 38)
                         = "ArrowUp"%string.
Proof. reflexivity. Qed.

Example getChar_legacy : getChar (mkKeyboardEvent None 48) = "0"%string.
Proof. reflexivity. Qed.

Example getVertex_5 : getVertex 5 = (-0.5, 0.5).
Proof. reflexivity. Qed.

Example first_frame_angle : ang (runanimation sampleMath init) == 2.
Proof. reflexivity. Qed.

Example check_nearRightEdge :
  calls (detectcollision nearRightEdge)
  = [(1%nat, "right"%string); (2%nat, "right"%string)].
Proof. reflexivity. Qed.

Example check_nearBottomLeft :
  calls (detectcollision nearBottomLeft)
  = [(0%nat, "left"%string); (1%nat, "down"%string); (5%nat, "left"%string)].
Proof. reflexivity. Qed.

(** * Further properties of the script *)

(** ** Vertices *)

Lemma getVertex_corner (i : nat) :
  In (getVertex i) [(-0.5, -0.5); (0.5, -0.5); (0.5, 0.5); (-0.5, 0.5)].
Proof.
  unfold getVertex. change numPoints with 6%nat.
  pose proof (Nat.mod_upper_bound i 6 ltac:(lia)) as Hlt.
  destruct (i mod 6)%nat as [| [| [| [| [| [| n]]]]]] eqn:Hm;
    [cbn; auto .. | lia].
Qed.

(** X1.  [getVertex] reads inside the vertex buffer for every index, wraps
    the index modulo [numPoints], and returns a corner of the square. *)
Theorem getVertex_wraps (i : nat) :
  ((i mod numPoints) * 2 + 1 < List.length vertices)%nat /\
  getVertex (i + numPoints) = getVertex i /\
  In (getVertex i) [(-0.5, -0.5); (0.5, -0.5); (0.5, 0.5); (-0.5, 0.5)].
Proof.
  change numPoints with 6%nat. change (List.length vertices) with 12%nat.
  pose proof (Nat.mod_upper_bound i 6 ltac:(lia)) as Hlt.
  split; [lia |].
  assert (E : ((i + 6) mod 6 = i mod 6)%nat).
  { replace (i + 6)%nat with (i + 1 * 6)%nat by lia.
    apply Nat.Div0.mod_add. }
  split.
  - unfold getVertex. change numPoints with 6%nat. now rewrite E.
  - apply getVertex_corner.
Qed.

(** ** The angle *)

Lemma trunc_nonneg (q : Q) :
  0 <= q -> inject_Z (JS.trunc q) <= q /\ q < inject_Z (JS.trunc q) + 1.
Proof.
  intro H. assert (E : JS.trunc q = Qfloor q).
  { unfold JS.trunc, Qfloor. destruct q as [n d]. cbn [Qnum Qden].
    apply Z.quot_div_nonneg; [| lia].
    unfold Qle in H. cbn in H. lia. }
  rewrite E. split; [apply Qfloor_le |].
  pose proof (Qlt_floor q) as L. rewrite inject_Z_plus in L. exact L.
Qed.

Lemma trunc_opp (q : Q) : JS.trunc (- q) = (- JS.trunc q)%Z.
Proof.
  unfold JS.trunc. destruct q as [n d]. cbn [Qnum Qden Qopp].
  apply Z.quot_opp_l. lia.
Qed.

Lemma trunc_nonpos (q : Q) :
  q <= 0 -> q <= inject_Z (JS.trunc q) /\ inject_Z (JS.trunc q) - 1 < q.
Proof.
  intro H. assert (H' : 0 <= - q) by lra.
  destruct (trunc_nonneg (- q) H') as [L U].
  rewrite trunc_opp, inject_Z_opp in L, U. split; lra.
Qed.

(** The remainder is short of the divisor on either side, and has the sign
    of the dividend. *)
Lemma rem_bounds (a n : Q) :
  0 < n ->
  (0 <= a -> 0 <= JS.rem a n /\ JS.rem a n < n) /\
  (a <= 0 -> - n < JS.rem a n /\ JS.rem a n <= 0).
Proof.
  intro Hn. unfold JS.rem.
  assert (Ea : a == n * (a / n)) by (field; lra).
  split; intro Ha.
  - assert (Hq : 0 <= a / n).
    { apply Qle_shift_div_l; [exact Hn | lra]. }
    destruct (trunc_nonneg (a / n) Hq) as [L U].
    generalize dependent (inject_Z (JS.trunc (a / n))). intros t L U.
    generalize dependent (a / n). intros q Ea Hq L U.
    split; nra.
  - assert (Hq : a / n <= 0).
    { apply Qle_shift_div_r; [exact Hn | lra]. }
    destruct (trunc_nonpos (a / n) Hq) as [L U].
    generalize dependent (inject_Z (JS.trunc (a / n))). intros t L U.
    generalize dependent (a / n). intros q Ea Hq L U.
    split; nra.
Qed.

Lemma ang_handleKeyPress (e : KeyboardEvent) (s : State) :
  ang (handleKeyPress e s) = ang s /\
  increment (handleKeyPress e s) = increment s.
Proof.
  destruct (handleKeyPress_cases e s)
    as [[_ E] | [[_ E] | [[_ E] | [[_ E] | [[_ E] | [[_ E] | [[_ E] |
        [[_ E] | [_ E]]]]]]]]]; rewrite E;
    repeat match goal with
           | |- context [if ?b then _ else _] => destruct b
           end; split; reflexivity.
Qed.

(** X2.  In every state of every run the angle is strictly between -360
    and 360 degrees; a frame adds the increment and takes the remainder by
    360, which differs from the sum by a whole number of turns; no key
    writes the angle. *)
Theorem ang_bounded (M : JS.Math) (evs : list Event) :
  (- 360 < ang (run M evs init) /\ ang (run M evs init) < 360) /\
  (forall s : State,
     exists k : Z,
       ang (runanimation M s) ==
       ang s + increment (detectcollision s) - 360 * inject_Z k) /\
  (forall e s, ang (handleKeyPress e s) = ang s).
Proof.
  split; [| split].
  - apply (run_invariant M (fun s => - 360 < ang s /\ ang s < 360)).
    + cbn. split; reflexivity.
    + intros s [e |] H; cbn [step].
      * now rewrite (proj1 (ang_handleKeyPress e s)).
      * pose proof (runanimation_fields M s) as F. cbv zeta in F.
        destruct F as [_ [_ [_ [_ [_ [_ [_ [_ F]]]]]]]]. rewrite F.
        assert (Hn : 0 < 360) by reflexivity.
        destruct (rem_bounds (ang s + increment (detectcollision s)) 360 Hn)
          as [P N].
        destruct (Qlt_le_dec (ang s + increment (detectcollision s)) 0)
          as [L | L].
        -- destruct (N ltac:(lra)). split; lra.
        -- destruct (P L). split; lra.
  - intro s. pose proof (runanimation_fields M s) as F. cbv zeta in F.
    destruct F as [_ [_ [_ [_ [_ [_ [_ [_ F]]]]]]]]. rewrite F.
    exists (JS.trunc ((ang s + increment (detectcollision s)) / 360)).
    unfold JS.rem. reflexivity.
  - intros e s. apply ang_handleKeyPress.
Qed.

(** ** The collision mode and the increment *)

Lemma handleKeyPress_collisionMode (e : KeyboardEvent) (s : State) :
  (getChar e = "0"%string /\ collisionMode (handleKeyPress e s) = 0%nat) \/
  (getChar e = "1"%string /\ collisionMode (handleKeyPress e s) = 1%nat) \/
  (getChar e <> "0"%string /\ getChar e <> "1"%string /\
   collisionMode (handleKeyPress e s) = collisionMode s).
Proof.
  destruct (handleKeyPress_cases e s)
    as [[K E] | [[K E] | [[K E] | [[K E] | [[K E] | [[K E] | [[K E] |
        [[K E] | [K E]]]]]]]]]; rewrite E; clear E.
  1-6: right; right; rewrite K;
    (split; [discriminate | split; [discriminate |]]);
    repeat match goal with
           | |- context [if ?b then _ else _] => destruct b
           end; reflexivity.
  - left. now split.
  - right; left. now split.
  - right; right. unfold handledKeys in K. cbn [In] in K.
    split; [| split; [| reflexivity]]; intro H; apply K; rewrite H; auto 10.
Qed.

(** X3.  The collision mode is 0 or 1 in every state of every run: it
    starts at 0, the key "0" sets it to 0, the key "1" sets it to 1, and no
    other key, no collision and no frame writes it. *)
Theorem collisionMode_binary (M : JS.Math) (evs : list Event) :
  (collisionMode (run M evs init) = 0%nat \/
   collisionMode (run M evs init) = 1%nat) /\
  (forall e s,
     (getChar e = "0"%string /\ collisionMode (handleKeyPress e s) = 0%nat) \/
     (getChar e = "1"%string /\ collisionMode (handleKeyPress e s) = 1%nat) \/
     (getChar e <> "0"%string /\ getChar e <> "1"%string /\
      collisionMode (handleKeyPress e s) = collisionMode s)) /\
  (forall s, collisionMode (detectcollision s) = collisionMode s) /\
  (forall s, collisionMode (runanimation M s) = collisionMode s).
Proof.
  assert (Hd : forall s, collisionMode (detectcollision s) = collisionMode s)
    by (intro s; apply (detectcollision_kept s)).
  assert (Hr : forall s, collisionMode (runanimation M s) = collisionMode s)
    by (intro s; apply (runanimation_fields M s)).
  split; [| split; [exact handleKeyPress_collisionMode | now split]].
  apply (run_invariant M
           (fun s => collisionMode s = 0%nat \/ collisionMode s = 1%nat));
    [now left |].
  intros s [e |] H; cbn [step]; [| now rewrite Hr].
  destruct (handleKeyPress_collisionMode e s)
    as [[_ E] | [[_ E] | [_ [_ E]]]]; rewrite E; auto.
Qed.

(** The increment after the collision check, from the number of calls the
    check has made. *)
Lemma detectcollision_increment (s : State) :
  exists l : list (nat * string),
    calls (detectcollision s) = calls s ++ l /\
    collisionMode (detectcollision s) = collisionMode s /\
    click (detectcollision s) =
      (if Nat.eqb (collisionMode s) 0
       then (click s || negb (Nat.eqb (List.length l) 0))%bool
       else click s) /\
    increment (detectcollision s) ==
      (if Nat.eqb (collisionMode s) 0 then increment s
       else if Nat.even (List.length l) then increment s
            else - increment s).
Proof.
  apply (detectcollision_preserves
           (fun s1 =>
              exists l : list (nat * string),
                calls s1 = calls s ++ l /\
                collisionMode s1 = collisionMode s /\
                click s1 =
                  (if Nat.eqb (collisionMode s) 0
                   then (click s || negb (Nat.eqb (List.length l) 0))%bool
                   else click s) /\
                increment s1 ==
                  (if Nat.eqb (collisionMode s) 0 then increment s
                   else if Nat.even (List.length l) then increment s
                        else - increment s))).
  - intros ci p t s1 _ [l [Hl [Hm [Hk Hi]]]].
    pose proof (processCollision_fields ci p t s1) as F. cbv zeta in F.
    destruct F as [_ [Fa [_ [Fk [Fi [Fm _]]]]]].
    exists (l ++ [(ci, t)]).
    rewrite Fa, Fk, Fi, Fm, Hl, Hm, <- app_assoc.
    split; [reflexivity | split; [reflexivity |]].
    rewrite length_app. cbn [List.length].
    replace (List.length l + 1)%nat with (S (List.length l)) by lia.
    rewrite Nat.even_succ, <- Nat.negb_even.
    destruct (Nat.eqb (collisionMode s) 0).
    + split; [| exact Hi]. cbn. now rewrite orb_true_r.
    + split; [exact Hk |]. rewrite Hi.
      destruct (Nat.even (List.length l)); cbn; ring.
  - exists []. rewrite app_nil_r. cbn.
    split; [reflexivity | split; [reflexivity |]].
    destruct (Nat.eqb (collisionMode s) 0);
      [rewrite orb_false_r |]; split; reflexivity.
Qed.

(** X4.  In a frame the collision check negates the increment once per
    call of [processCollision] in mode 1, so an even number of collisions in
    one frame leaves the direction of rotation as it was; in mode 0 it keeps
    the increment and sets [click] when it makes a call. *)
Theorem increment_parity (s : State) :
  exists l : list (nat * string),
    calls (detectcollision s) = calls s ++ l /\
    (collisionMode s = 0%nat ->
     increment (detectcollision s) == increment s /\
     click (detectcollision s) =
       (click s || negb (Nat.eqb (List.length l) 0))%bool) /\
    (collisionMode s <> 0%nat ->
     click (detectcollision s) = click s /\
     increment (detectcollision s) ==
       (if Nat.even (List.length l) then increment s else - increment s)).
Proof.
  destruct (detectcollision_increment s) as [l [Hl [_ [Hk Hi]]]].
  exists l. split; [exact Hl |]. split; intro Hm.
  - rewrite Hm in Hk, Hi. cbn in Hk, Hi. now split.
  - apply Nat.eqb_neq in Hm. rewrite Hm in Hk, Hi. now split.
Qed.

(** X5.  The increment is 2 or -2 in every state of every run, so every
    frame turns the square by two degrees one way or the other. *)
Theorem increment_two (M : JS.Math) (evs : list Event) :
  increment (run M evs init) == 2 \/ increment (run M evs init) == - 2.
Proof.
  apply (run_invariant M (fun s => increment s == 2 \/ increment s == - 2));
    [left; reflexivity |].
  intros s [e |] H; cbn [step].
  - now rewrite (proj2 (ang_handleKeyPress e s)).
  - pose proof (runanimation_fields M s) as F. cbv zeta in F.
    destruct F as [_ [_ [_ [_ [_ [_ [F _]]]]]]]. rewrite F.
    destruct (detectcollision_increment s) as [l [_ [_ [_ Hi]]]].
    rewrite Hi.
    destruct (Nat.eqb (collisionMode s) 0); [exact H |].
    destruct (Nat.even (List.length l)); [exact H |].
    destruct H as [H | H]; rewrite H; [right | left]; reflexivity.
Qed.

(** X6.  In a mode other than 0, a frame that starts with no re-anchoring
    pending keeps the active corner, the pivot and the translation, whatever
    the collision check finds: the corrective translation goes into a model
    matrix that the frame then builds anew from the old pivot. *)
Theorem mode1_frame_keeps_pivot (M : JS.Math) (s : State) :
  collisionMode s <> 0%nat ->
  click s = false ->
  let s' := runanimation M s in
  cindex s' = cindex s /\
  currentCorner s' = currentCorner s /\
  tx s' = tx s /\ ty s' = ty s /\
  Cuon.Meq (modelMatrix s')
    (pivotTransform M (scale s) (ang s')
       (Cuon.v0 (currentCorner s)) (Cuon.v1 (currentCorner s))
       (tx s) (ty s)).
Proof.
  intros Hm Hc. cbv zeta.
  destruct (detectcollision_increment s) as [l [_ [_ [Hk _]]]].
  pose proof Hm as Hm'. apply Nat.eqb_neq in Hm'.
  rewrite Hm', Hc in Hk.
  pose proof (runanimation_fields M s) as F. cbv zeta in F.
  destruct F as [Fi [_ [_ [Fs _]]]].
  pose proof (runanimation_anchor M s) as [_ A]. cbv zeta in A.
  destruct (A Hk) as [Ec [Ex Ey]].
  rewrite Fi, (detectcollision_cindex_mode1 s Hm).
  split; [reflexivity |]. split; [exact Ec |].
  split; [exact Ex |]. split; [exact Ey |].
  rewrite runanimation_matrix, Ec, Ex, Ey, Fs. reflexivity.
Qed.

Lemma mode1_frame_keeps_pivot_witness :
  let s' := runanimation sampleMath nearRightEdge1 in
  cindex s' = 0%nat /\ currentCorner s' = currentCorner nearRightEdge1.
Proof.
  cbv zeta.
  pose proof (mode1_frame_keeps_pivot sampleMath nearRightEdge1
                ltac:(discriminate) eq_refl) as H.
  cbv zeta in H. destruct H as [H1 [H2 _]]. split; [exact H1 | exact H2].
Defined.

(** X7.  When every tracked corner is within the viewport under the model
    matrix, the collision check changes nothing. *)
Theorem detectcollision_inside (s : State) :
  (forall ci, In ci cornerIndexes ->
     let p := getTransformedPosition ci s in
     (- wsize / 2 <= fst p /\ fst p <= wsize / 2) /\
     (- wsize / 2 <= snd p /\ snd p <= wsize / 2)) ->
  detectcollision s = s.
Proof.
  intro H. unfold detectcollision, cornerIndexes in *. cbn [fold_left].
  assert (B : forall ci, In ci [0; 1; 2; 5]%nat ->
                         detectcollision_body s ci = s).
  { intros ci Hci. specialize (H ci Hci). cbv zeta in H.
    destruct H as [[Hx1 Hx2] [Hy1 Hy2]].
    destruct (detectcollision_body_cases s ci)
      as [[C _] | [[_ [C _]] | [[_ [C _]] | [[_ [_ [C _]]] | [_ [_ E]]]]]];
      [exfalso; revert C Hx1 Hx2 Hy1 Hy2;
       generalize (fst (getTransformedPosition ci s));
       generalize (snd (getTransformedPosition ci s));
       generalize (wsize / 2); generalize (- wsize / 2);
       intros; lra .. | exact E]. }
  rewrite (B 0%nat), (B 1%nat), (B 2%nat), (B 5%nat); cbn; auto.
Qed.

Lemma detectcollision_inside_witness : detectcollision init = init.
Proof.
  apply detectcollision_inside.
  intros ci Hci. cbn in Hci.
  destruct Hci as [E | [E | [E | [E | []]]]]; subst ci;
    vm_compute; repeat split; discriminate.
Defined.

(** ** The pivot *)

Lemma Qeq_sub_of_add (a b c : Q) : a == b + c -> b == a - c.
Proof. intro H. rewrite H. ring. Qed.

(** A frame that starts from an anchored state maps the vertex [cindex]
    to the pivot. *)
Lemma runanimation_pivot (M : JS.Math) (s : State) :
  anchored s ->
  let s' := runanimation M s in
  fst (getTransformedPosition (cindex s') s') ==
    Cuon.v0 (currentCorner s') /\
  snd (getTransformedPosition (cindex s') s') ==
    Cuon.v1 (currentCorner s').
Proof.
  intro Hs. cbv zeta.
  pose proof (anchored_runanimation M s Hs) as A.
  pose proof (runanimation_fields M s) as F.
  cbv zeta in F. destruct F as [_ [Fk _]].
  destruct (A Fk) as [Ax Ay]. clear A Fk.
  pose proof (runanimation_matrix M s) as Hm.
  cbv zeta in Hm.
  generalize dependent (runanimation M s).
  intros s' Ax Ay Hm.
  assert (V : Cuon.Veq
                (Cuon.multiplyVector4 (modelMatrix s')
                   (Cuon.mkVector4 (fst (getVertex (cindex s')))
                      (snd (getVertex (cindex s'))) 0.0 1.0))
                (Cuon.mkVector4 (Cuon.v0 (currentCorner s'))
                   (Cuon.v1 (currentCorner s')) 0 1)).
  { apply (Veq_trans _
             (Cuon.multiplyVector4
                (pivotTransform M (scale s') (ang s')
                   (Cuon.v0 (currentCorner s')) (Cuon.v1 (currentCorner s'))
                   (tx s') (ty s'))
                (Cuon.mkVector4 (Cuon.v0 (currentCorner s') - tx s')
                   (Cuon.v1 (currentCorner s') - ty s') 0 1)));
      [| apply pivotTransform_maps].
    apply multiplyVector4_Meq; [exact Hm |].
    unfold Cuon.Veq; cbn [Cuon.v0 Cuon.v1 Cuon.v2 Cuon.v3].
    split; [apply Qeq_sub_of_add; exact Ax |].
    split; [apply Qeq_sub_of_add; exact Ay |]. split; reflexivity. }
  destruct V as [V0 [V1 _]]. unfold getTransformedPosition.
  cbn [fst snd]. cbn [Cuon.v0 Cuon.v1] in V0, V1.
  split; [exact V0 | exact V1].
Qed.

(** X8.  After every frame of every run the active corner is drawn at the
    pivot: the model matrix of the frame maps the vertex [cindex] to the
    point [currentCorner], about which the frame rotates and scales. *)
Theorem pivot_is_active_corner (M : JS.Math) (evs : list Event) :
  let s' := runanimation M (run M evs init) in
  let p := getTransformedPosition (cindex s') s' in
  fst p == Cuon.v0 (currentCorner s') /\
  snd p == Cuon.v1 (currentCorner s').
Proof.
  cbv zeta. apply (runanimation_pivot M _ (anchored_run M evs)).
Qed.

Lemma runanimation_keeps_position (M : JS.Math) (s : State) :
  anchored s -> wellFormed s ->
  let s1 := detectcollision s in
  let s' := runanimation M s in
  (click s1 = true ->
   cindex s' = cindex s1 /\
   fst (getTransformedPosition (cindex s') s') ==
     fst (getTransformedPosition (cindex s1) s1) /\
   snd (getTransformedPosition (cindex s') s') ==
     snd (getTransformedPosition (cindex s1) s1)) /\
  (click s1 = false ->
   cindex s' = cindex s /\ currentCorner s' = currentCorner s).
Proof.
  intros Ha [_ [Hz Hw]]. cbv zeta.
  pose proof (runanimation_pivot M s Ha) as P.
  cbv zeta in P. destruct P as [P0 P1].
  pose proof (runanimation_fields M s) as F.
  cbv zeta in F. destruct F as [Fi _].
  pose proof (runanimation_anchor M s) as [A1 A0].
  pose proof (detectcollision_click s) as [_ C].
  cbv zeta in C.
  revert P0 P1 Fi A1 A0.
  generalize (runanimation M s). intros s' P0 P1 Fi A1 A0.
  split; intro E.
  - destruct (A1 E) as [Ec _]. split; [exact Fi |].
    rewrite P0, P1, Ec.
    unfold getTransformedPosition. cbn [fst snd].
    apply multiplyVector4_point; assumption.
  - destruct (A0 E) as [Ec _]. destruct (C E) as [_ Ci].
    split; [now rewrite Fi | exact Ec].
Qed.

(** X17.  Re-anchoring does not make the square jump.  In a frame of a run
    that re-anchors, the corner that becomes the pivot is drawn where the
    model matrix of the moment, collision corrections included, had it; in
    a frame that does not, the pivot stays where it was. *)
Theorem active_corner_stays (M : JS.Math) (evs : list Event) :
  let s := run M evs init in
  let s1 := detectcollision s in
  let s' := runanimation M s in
  (click s1 = true ->
   cindex s' = cindex s1 /\
   fst (getTransformedPosition (cindex s') s') ==
     fst (getTransformedPosition (cindex s1) s1) /\
   snd (getTransformedPosition (cindex s') s') ==
     snd (getTransformedPosition (cindex s1) s1)) /\
  (click s1 = false ->
   cindex s' = cindex s /\ currentCorner s' = currentCorner s).
Proof.
  cbv zeta.
  apply (runanimation_keeps_position M _ (anchored_run M evs)
           (wellFormed_run M evs)).
Qed.

(** ** Planar states *)

(** X9.  In every state of every run the model matrix is a transformation
    of the plane and the pivot is a point of the plane, so every vertex the
    model matrix transforms stays in the plane z = 0 with w = 1. *)
Theorem model_matrix_planar (M : JS.Math) (evs : list Event) (ci : nat) :
  let s := run M evs init in
  let v := getVertex ci in
  let p := Cuon.multiplyVector4 (modelMatrix s)
             (Cuon.mkVector4 (fst v) (snd v) 0.0 1.0) in
  affine (modelMatrix s) /\
  (Cuon.v2 (currentCorner s) == 0 /\ Cuon.v3 (currentCorner s) == 1) /\
  (Cuon.v2 p == 0 /\ Cuon.v3 p == 1).
Proof.
  cbv zeta. destruct (wellFormed_run M evs) as [Ha Hc].
  split; [exact Ha | split; [exact Hc |]].
  destruct (multiplyVector4_affine (modelMatrix (run M evs init))
              (Cuon.mkVector4 (fst (getVertex ci)) (snd (getVertex ci))
                 0.0 1.0) Ha) as [Z W].
  rewrite Z, W. cbn [Cuon.v2 Cuon.v3]. split; reflexivity.
Qed.

(** ** The projection *)

Lemma projectionMatrix_run (M : JS.Math) (evs : list Event) :
  projectionMatrix (run M evs init) = projectionMatrix init.
Proof.
  apply (run_invariant M
           (fun s => projectionMatrix s = projectionMatrix init));
    [reflexivity |].
  intros s [e |] H; cbn [step].
  - destruct (handleKeyPress_cases e s)
      as [[_ E] | [[_ E] | [[_ E] | [[_ E] | [[_ E] | [[_ E] | [[_ E] |
          [[_ E] | [_ E]]]]]]]]]; rewrite E; try exact H;
      repeat match goal with
             | |- context [if ?b then _ else _] => destruct b
             end; exact H.
  - pose proof (runanimation_fields M s) as F. cbv zeta in F.
    destruct F as [_ [_ [_ [_ [F _]]]]]. now rewrite F.
Qed.

Lemma ortho_apply (q : Cuon.Vector4) :
  Cuon.v0 (Cuon.multiplyVector4 (projectionMatrix init) q) ==
    Cuon.v0 q / 2.5 /\
  Cuon.v1 (Cuon.multiplyVector4 (projectionMatrix init) q) ==
    Cuon.v1 q / 2.5.
Proof.
  destruct q as [q0 q1 q2 q3].
  unfold Cuon.multiplyVector4, init, projectionMatrix, Cuon.setOrtho, wsize.
  cbn [Cuon.v0 Cuon.v1 Cuon.v2 Cuon.v3 Cuon.e0 Cuon.e1 Cuon.e4 Cuon.e5
       Cuon.e8 Cuon.e9 Cuon.e12 Cuon.e13].
  split; field.
Qed.

(** X10.  The transform [draw] computes, projection times model, sends a
    vertex to its position under the model matrix divided by the half
    extent [wsize/2]; the collision check makes no call for a corner exactly
    when that image is within the square [-1, 1] x [-1, 1]. *)
Theorem viewport_is_unit_square (M : JS.Math) (evs : list Event) (ci : nat) :
  let s := run M evs init in
  let v := getVertex ci in
  let p := getTransformedPosition ci s in
  let c := Cuon.multiplyVector4 (draw s)
             (Cuon.mkVector4 (fst v) (snd v) 0.0 1.0) in
  (Cuon.v0 c == fst p / 2.5 /\ Cuon.v1 c == snd p / 2.5) /\
  (calls (detectcollision_body s ci) = calls s <->
   (- 1 <= Cuon.v0 c /\ Cuon.v0 c <= 1) /\
   (- 1 <= Cuon.v1 c /\ Cuon.v1 c <= 1)).
Proof.
  cbv zeta. set (s := run M evs init).
  assert (C : Cuon.v0 (Cuon.multiplyVector4 (draw s)
                         (Cuon.mkVector4 (fst (getVertex ci))
                            (snd (getVertex ci)) 0.0 1.0)) ==
              fst (getTransformedPosition ci s) / 2.5 /\
              Cuon.v1 (Cuon.multiplyVector4 (draw s)
                         (Cuon.mkVector4 (fst (getVertex ci))
                            (snd (getVertex ci)) 0.0 1.0)) ==
              snd (getTransformedPosition ci s) / 2.5).
  { unfold draw, s. rewrite projectionMatrix_run. fold s.
    destruct (multiplyVector4_concat (projectionMatrix init) (modelMatrix s)
                (Cuon.mkVector4 (fst (getVertex ci)) (snd (getVertex ci))
                   0.0 1.0)) as [E0 [E1 _]].
    unfold Cuon.multiply. rewrite E0, E1.
    apply ortho_apply. }
  split; [exact C |]. destruct C as [C0 C1]. rewrite C0, C1.
  pose proof half_extent as [Hh Hl].
  pose proof (detectcollision_body_cases s ci) as K. cbv zeta in K.
  revert K.
  generalize (fst (getTransformedPosition ci s)) as x.
  generalize (snd (getTransformedPosition ci s)) as y.
  intros y x K.
  set (h := wsize / 2) in *. set (l := - wsize / 2) in *. clearbody h l.
  assert (Hx : forall z : Q, (- 1 <= z / 2.5 /\ z / 2.5 <= 1) <->
                             (- 2.5 <= z /\ z <= 2.5)).
  { intro z. assert (Ez : z / 2.5 == z * 0.4) by field. rewrite Ez.
    split; intros [A B]; split; lra. }
  rewrite !Hx.
  assert (N : forall t, calls (processCollision ci (x, y) t s) <> calls s).
  { intros t E.
    rewrite (proj1 (proj2 (processCollision_fields ci (x, y) t s))) in E.
    rewrite <- (app_nil_r (calls s)) in E at 2.
    apply app_inv_head in E. discriminate E. }
  destruct K as [[H1 E] | [[H1 [H2 E]] | [[[H1 H2] [H3 E]] |
        [[[H1 H2] [H3 [H4 E]]] | [[H1 H2] [[H3 H4] E]]]]]];
    rewrite E; split; intro G;
    try (exfalso; exact (N _ G));
    try reflexivity;
    try (repeat split; lra);
    exfalso; destruct G as [[G1 G2] [G3 G4]]; lra.
Qed.

(** ** Drawing *)

Lemma cindex_run (M : JS.Math) (evs : list Event) :
  In (cindex (run M evs init)) cornerIndexes.
Proof.
  apply (run_invariant M (fun s => In (cindex s) cornerIndexes)).
  - cbn. auto.
  - intros s [e |] H; cbn [step].
    + destruct (handleKeyPress_cindex e s) as [E | E];
        [rewrite E |]; assumption.
    + pose proof (runanimation_fields M s) as F. cbv zeta in F.
      destruct F as [F _]. rewrite F.
      destruct (detectcollision_cindex s) as [E | E];
        [rewrite E |]; assumption.
Qed.

(** X11.  [draw] issues its two draw calls exactly when the shader has
    both attributes, after it has uploaded projection times model; otherwise
    it logs one message and draws nothing.  In every state of every run each
    draw call reads vertices inside the buffers: the range of indices is
    within [numPoints], and [numPoints] vertices of the sizes given to
    [vertexAttribPointer] are what the vertex and the color buffer hold. *)
Theorem draw_within_buffers (M : JS.Math) (evs : list Event)
    (positionIndex colorIndex : Z) :
  let s := run M evs init in
  let cmds := fst (drawGL positionIndex colorIndex s) in
  let log := snd (drawGL positionIndex colorIndex s) in
  (log = None <-> (0 <= positionIndex /\ 0 <= colorIndex)%Z) /\
  (log = None ->
   exists before after,
     cmds = before ++
            [GL.uniformMatrix4fv (draw s);
             GL.drawArrays GL.TRIANGLES 0 numPoints;
             GL.drawArrays GL.POINTS (cindex s) 1] ++ after /\
     (forall m f c, ~ In (GL.drawArrays m f c) before) /\
     (forall m f c, ~ In (GL.drawArrays m f c) after)) /\
  (log <> None -> forall m f c, ~ In (GL.drawArrays m f c) cmds) /\
  (forall m f c, In (GL.drawArrays m f c) cmds -> (f + c <= numPoints)%nat) /\
  (forall i size,
     In (GL.vertexAttribPointer i size) cmds ->
     (i = positionIndex /\ (size * numPoints)%nat = List.length vertices) \/
     (i = colorIndex /\ (size * numPoints)%nat = List.length colors)).
Proof.
  cbv zeta. pose proof (cindex_run M evs) as Hc.
  generalize dependent (run M evs init). intros s Hc.
  unfold drawGL.
  destruct (positionIndex <? 0)%Z eqn:Ep;
    [apply Z.ltb_lt in Ep | apply Z.ltb_ge in Ep];
    [| destruct (colorIndex <? 0)%Z eqn:Ec;
       [apply Z.ltb_lt in Ec | apply Z.ltb_ge in Ec]];
    cbn [fst snd app].
  - split; [split; [discriminate | lia] |].
    split; [discriminate |].
    split; [intros _ m f c H; cbn in H; intuition discriminate |].
    split; [intros m f c H; cbn in H; intuition discriminate |].
    intros i size H; cbn in H; intuition discriminate.
  - split; [split; [discriminate | lia] |].
    split; [discriminate |].
    split; [intros _ m f c H; cbn in H; intuition discriminate |].
    split; [intros m f c H; cbn in H; intuition discriminate |].
    intros i size H; cbn in H.
    destruct H as [H | [H | [H | [H | [H | [H | [H | []]]]]]]];
      try discriminate H.
    inversion H; subst. left. split; reflexivity.
  - split; [split; [intros _; lia | reflexivity] |].
    split.
    { intros _.
      exists [GL.clear; GL.useProgram true;
              GL.bindBuffer (Some GL.vertexbuffer);
              GL.enableVertexAttribArray positionIndex;
              GL.vertexAttribPointer positionIndex 2;
              GL.bindBuffer None; GL.bindBuffer (Some GL.colorbuffer);
              GL.enableVertexAttribArray colorIndex;
              GL.vertexAttribPointer colorIndex 4],
             [GL.bindBuffer None; GL.disableVertexAttribArray positionIndex;
              GL.useProgram false].
      split; [reflexivity |].
      split; intros m f c H; cbn in H; intuition discriminate. }
    split; [intro H; contradiction |].
    split.
    { intros m f c H; cbn in H.
      destruct H as [H | [H | [H | [H | [H | [H | [H | [H | [H | [H | [H |
                    [H | [H | [H | [H | []]]]]]]]]]]]]]]];
        try discriminate H; inversion H; subst.
      - reflexivity.
      - change numPoints with 6%nat. unfold cornerIndexes in Hc.
        cbn [In] in Hc. lia. }
    intros i size H; cbn in H.
    destruct H as [H | [H | [H | [H | [H | [H | [H | [H | [H | [H | [H |
                  [H | [H | [H | [H | []]]]]]]]]]]]]]]];
      try discriminate H; inversion H; subst.
    + left. split; reflexivity.
    + right. split; reflexivity.
Qed.

(** ** Key presses in a row *)

Lemma isHandled_spec (ch : string) :
  isHandled ch = true <-> In ch handledKeys.
Proof.
  unfold isHandled. rewrite existsb_exists. split.
  - intros [k [Hk E]]. apply String.eqb_eq in E. now subst.
  - intro H. exists ch. split; [exact H | apply String.eqb_refl].
Qed.

Lemma handleKeyPress_console (e : KeyboardEvent) (s : State) :
  console (handleKeyPress e s) =
    console s ++ (if isHandled (getChar e) then [getChar e] else []) /\
  click (handleKeyPress e s) = (click s || isHandled (getChar e))%bool.
Proof.
  destruct (handleKeyPress_cases e s)
    as [[K E] | [[K E] | [[K E] | [[K E] | [[K E] | [[K E] | [[K E] |
        [[K E] | [K E]]]]]]]]]; rewrite E; clear E.
  1-8: rewrite K;
    repeat match goal with
           | |- context [if JS.ltb ?a ?b then _ else _] =>
               destruct (JS.ltb a b)
           end; cbn; rewrite orb_true_r; split; reflexivity.
  assert (H : isHandled (getChar e) = false).
  { destruct (isHandled (getChar e)) eqn:E; [| reflexivity].
    apply isHandled_spec in E. contradiction. }
  rewrite H, app_nil_r, orb_false_r. split; reflexivity.
Qed.

(** X12.  After any sequence of key presses the console holds, after what
    it held before, the names of the handled keys among them in the order
    they were pressed, and [click] is set exactly when it was set before or
    one of the keys was a handled one. *)
Theorem console_is_key_history (events : list KeyboardEvent) (s : State) :
  console (pressKeys events s) =
    console s ++ filter isHandled (map getChar events) /\
  click (pressKeys events s) =
    (click s || existsb isHandled (map getChar events))%bool.
Proof.
  revert s. induction events as [| e events IH]; intro s.
  - cbn. rewrite app_nil_r, orb_false_r. split; reflexivity.
  - change (pressKeys (e :: events) s)
      with (pressKeys events (handleKeyPress e s)).
    destruct (IH (handleKeyPress e s)) as [Hc Hk].
    destruct (handleKeyPress_console e s) as [Ec Ek].
    rewrite Hc, Hk, Ec, Ek. cbn [map filter existsb].
    destruct (isHandled (getChar e)).
    + rewrite <- app_assoc. cbn. rewrite !orb_true_r. split; reflexivity.
    + rewrite app_nil_r, orb_false_r. cbn. split; reflexivity.
Qed.

(** ** Scaling up and down *)

Lemma scale_key_up (w : nat) (s : State) :
  (scale s < 1.5 ->
   scale (handleKeyPress (mkKeyboardEvent (Some "ArrowUp"%string) w) s) =
   scale s + 0.1) /\
  (1.5 <= scale s ->
   scale (handleKeyPress (mkKeyboardEvent (Some "ArrowUp"%string) w) s) =
   scale s).
Proof.
  pose proof (handleKeyPress_scale
                (mkKeyboardEvent (Some "ArrowUp"%string) w) s) as C.
  cbv zeta in C.
  destruct C as [[_ C] | [[K _] | [K _]]];
    [exact C | discriminate K | exfalso; apply K; reflexivity].
Qed.

Lemma scale_key_down (w : nat) (s : State) :
  (0.5 < scale s ->
   scale (handleKeyPress (mkKeyboardEvent (Some "ArrowDown"%string) w) s) =
   scale s - 0.1) /\
  (scale s <= 0.5 ->
   scale (handleKeyPress (mkKeyboardEvent (Some "ArrowDown"%string) w) s) =
   scale s).
Proof.
  pose proof (handleKeyPress_scale
                (mkKeyboardEvent (Some "ArrowDown"%string) w) s) as C.
  cbv zeta in C.
  destruct C as [[K _] | [[_ C] | [_ [K _]]]];
    [discriminate K | exact C | exfalso; apply K; reflexivity].
Qed.

(** X13.  Away from the limits the keys "ArrowUp" and "ArrowDown" undo each
    other: for a scale above 0.4 and below 1.5, up then down gives the scale
    back, and for a scale above 0.5 and below 1.6, down then up does.  At
    the upper limit, 1.5 or more, up then down lowers the scale by 0.1. *)
Theorem scale_up_down (w1 w2 : nat) (s : State) :
  let up := mkKeyboardEvent (Some "ArrowUp"%string) w1 in
  let down := mkKeyboardEvent (Some "ArrowDown"%string) w2 in
  (0.4 < scale s /\ scale s < 1.5 ->
   scale (handleKeyPress down (handleKeyPress up s)) == scale s) /\
  (0.5 < scale s /\ scale s < 1.6 ->
   scale (handleKeyPress up (handleKeyPress down s)) == scale s) /\
  (1.5 <= scale s ->
   scale (handleKeyPress down (handleKeyPress up s)) == scale s - 0.1).
Proof.
  cbv zeta. split; [| split].
  - intros [L U].
    destruct (scale_key_up w1 s) as [Ku _].
    destruct (scale_key_down w2
                (handleKeyPress (mkKeyboardEvent (Some "ArrowUp"%string) w1)
                   s)) as [Kd _].
    rewrite (Ku U) in Kd. rewrite Kd; [ring | lra].
  - intros [L U].
    destruct (scale_key_down w2 s) as [Kd _].
    destruct (scale_key_up w1
                (handleKeyPress
                   (mkKeyboardEvent (Some "ArrowDown"%string) w2) s))
      as [Ku _].
    rewrite (Kd L) in Ku. rewrite Ku; [ring | lra].
  - intro L.
    destruct (scale_key_up w1 s) as [_ Ku].
    destruct (scale_key_down w2
                (handleKeyPress (mkKeyboardEvent (Some "ArrowUp"%string) w1)
                   s)) as [Kd _].
    rewrite (Ku L) in Kd. rewrite Kd; [reflexivity | lra].
Qed.

(** ** The string of an event *)

Lemma fromCharCode_length (n : nat) :
  (1 <= String.length (JS.fromCharCode n) <= 3)%nat.
Proof.
  unfold JS.fromCharCode.
  repeat match goal with
         | |- context [if ?b then _ else _] => destruct b
         end; cbn; lia.
Qed.

(** X14.  [getChar] never gives the empty string, and gives [event.key]
    whenever that is a non-empty string.  For an event without [key] it
    gives the character of [event.which], which is neither "ArrowUp" nor
    "ArrowDown": such an event never changes the scale. *)
Theorem getChar_never_empty (e : KeyboardEvent) :
  getChar e <> ""%string /\
  (forall k, key e = Some k -> k <> ""%string -> getChar e = k) /\
  (key e = None \/ key e = Some ""%string ->
   getChar e = JS.fromCharCode (which e) /\
   forall s, scale (handleKeyPress e s) = scale s).
Proof.
  assert (L : forall n k, (3 < String.length k)%nat \/ k = ""%string ->
                          JS.fromCharCode n <> k).
  { intros n k Hk E. pose proof (fromCharCode_length n) as B.
    rewrite E in B. destruct Hk as [Hk | Hk]; [lia |].
    subst k. cbn in B. lia. }
  split; [| split].
  - unfold getChar. destruct (key e) as [k |].
    + destruct (String.eqb k "") eqn:E.
      * apply L. now right.
      * now apply String.eqb_neq in E.
    + apply L. now right.
  - intros k Hk Hne. unfold getChar. rewrite Hk.
    apply String.eqb_neq in Hne. now rewrite Hne.
  - intro H.
    assert (E : getChar e = JS.fromCharCode (which e)).
    { unfold getChar. destruct H as [H | H]; rewrite H; reflexivity. }
    split; [exact E |]. intro s.
    pose proof (handleKeyPress_scale e s) as C. cbv zeta in C.
    destruct C as [[K _] | [[K _] | [_ [_ C]]]]; [| | exact C];
      exfalso; rewrite E in K; revert K; apply L; left; cbn; lia.
Qed.

Lemma getChar_never_empty_witness :
  scale (handleKeyPress (mkKeyboardEvent None 38) init) = scale init.
Proof.
  exact (proj2 (proj2 (proj2 (getChar_never_empty (mkKeyboardEvent None 38)))
                  (or_introl eq_refl)) init).
Defined.

(** ** The shape of the square *)

(** The image of a point of the plane under the pivot transform. *)
Lemma pivotTransform_apply (M : JS.Math) (k ang x y tx ty px py : Q) :
  let c := JS.cos M (JS.PI M * ang / 180) in
  let s := JS.sin M (JS.PI M * ang / 180) in
  Cuon.Veq
    (Cuon.multiplyVector4 (pivotTransform M k ang x y tx ty)
       (Cuon.mkVector4 px py 0.0 1.0))
    (Cuon.mkVector4
       (x + k * (c * (px + tx - x) - s * (py + ty - y)))
       (y + k * (s * (px + tx - x) + c * (py + ty - y)))
       0 1).
Proof.
  cbv zeta. unfold pivotTransform.
  rewrite !multiplyVector4_concat.
  rewrite (multiplyVector4_setTranslate tx ty 0).
  cbn [Cuon.v0 Cuon.v1 Cuon.v2 Cuon.v3].
  rewrite (multiplyVector4_setTranslate (- x) (- y) 0).
  cbn [Cuon.v0 Cuon.v1 Cuon.v2 Cuon.v3].
  rewrite multiplyVector4_setRotateZ. cbv zeta.
  cbn [Cuon.v0 Cuon.v1 Cuon.v2 Cuon.v3].
  rewrite multiplyVector4_setScale.
  cbn [Cuon.v0 Cuon.v1 Cuon.v2 Cuon.v3].
  rewrite multiplyVector4_setTranslate.
  cbn [Cuon.v0 Cuon.v1 Cuon.v2 Cuon.v3].
  unfold Cuon.Veq; cbn [Cuon.v0 Cuon.v1 Cuon.v2 Cuon.v3].
  repeat apply conj; ring.
Qed.

Lemma dist2_similarity (k c s x y tx ty px py qx qy : Q) :
  c * c + s * s == 1 ->
  dist2 (x + k * (c * (px + tx - x) - s * (py + ty - y)),
         y + k * (s * (px + tx - x) + c * (py + ty - y)))
        (x + k * (c * (qx + tx - x) - s * (qy + ty - y)),
         y + k * (s * (qx + tx - x) + c * (qy + ty - y)))
  == k * k * dist2 (px, py) (qx, qy).
Proof.
  intro H. unfold dist2; cbn [fst snd].
  transitivity (k * k * (c * c + s * s) *
                ((px - qx) * (px - qx) + (py - qy) * (py - qy)));
    [ring | rewrite H; ring].
Qed.

(** X15.  When the host's cosine and sine of the angle of a frame satisfy
    cos * cos + sin * sin = 1, the model matrix of the frame multiplies the
    squared distance between any two vertices by the square of the scale:
    the square is drawn as a square, its side the scale. *)
Theorem frame_keeps_shape (M : JS.Math) (s : State) (ci cj : nat) :
  let s' := runanimation M s in
  let a := JS.PI M * ang s' / 180 in
  JS.cos M a * JS.cos M a + JS.sin M a * JS.sin M a == 1 ->
  dist2 (getTransformedPosition ci s') (getTransformedPosition cj s') ==
  scale s' * scale s' * dist2 (getVertex ci) (getVertex cj).
Proof.
  cbv zeta. pose proof (runanimation_matrix M s) as Hm. cbv zeta in Hm.
  generalize dependent (runanimation M s). intros s' Hm H.
  assert (P : forall i,
             fst (getTransformedPosition i s') ==
               Cuon.v0 (currentCorner s') +
               scale s' *
               (JS.cos M (JS.PI M * ang s' / 180) *
                (fst (getVertex i) + tx s' - Cuon.v0 (currentCorner s')) -
                JS.sin M (JS.PI M * ang s' / 180) *
                (snd (getVertex i) + ty s' - Cuon.v1 (currentCorner s'))) /\
             snd (getTransformedPosition i s') ==
               Cuon.v1 (currentCorner s') +
               scale s' *
               (JS.sin M (JS.PI M * ang s' / 180) *
                (fst (getVertex i) + tx s' - Cuon.v0 (currentCorner s')) +
                JS.cos M (JS.PI M * ang s' / 180) *
                (snd (getVertex i) + ty s' - Cuon.v1 (currentCorner s')))).
  { intro i. unfold getTransformedPosition. cbn [fst snd].
    pose proof (pivotTransform_apply M (scale s') (ang s')
                  (Cuon.v0 (currentCorner s')) (Cuon.v1 (currentCorner s'))
                  (tx s') (ty s') (fst (getVertex i)) (snd (getVertex i)))
      as A. cbv zeta in A.
    pose proof (multiplyVector4_Meq _ _
                  (Cuon.mkVector4 (fst (getVertex i)) (snd (getVertex i))
                     0.0 1.0) _ Hm (Veq_refl _)) as B.
    destruct (Veq_trans _ _ _ B A) as [E0 [E1 _]].
    cbn [Cuon.v0 Cuon.v1] in E0, E1. split; [exact E0 | exact E1]. }
  destruct (P ci) as [Xi Yi]. destruct (P cj) as [Xj Yj].
  unfold dist2 at 1. rewrite Xi, Yi, Xj, Yj.
  rewrite (surjective_pairing (getVertex ci)),
    (surjective_pairing (getVertex cj)).
  rewrite <- (dist2_similarity (scale s')
                (JS.cos M (JS.PI M * ang s' / 180))
                (JS.sin M (JS.PI M * ang s' / 180))
                (Cuon.v0 (currentCorner s')) (Cuon.v1 (currentCorner s'))
                (tx s') (ty s')
                (fst (getVertex ci)) (snd (getVertex ci))
                (fst (getVertex cj)) (snd (getVertex cj)) H).
  unfold dist2; cbn [fst snd]. reflexivity.
Qed.

Lemma frame_keeps_shape_witness :
  let s' := runanimation sampleMath init in
  dist2 (getTransformedPosition 0 s') (getTransformedPosition 2 s') ==
  scale s' * scale s' * dist2 (getVertex 0) (getVertex 2).
Proof.
  cbv zeta. apply (frame_keeps_shape sampleMath init 0 2).
  vm_compute. reflexivity.
Defined.

(** ** The second copy of the collision code *)

(** X16.  In the second copy of the script [doCollision] fails exactly for
    a collision type that is not a key of its table, 0 to 3;
    [detectCollision] passes the types 0 to 3 only, so it never fails, and it
    leaves the state [detectcollision] of the first copy leaves. *)
Theorem Part000_collision_agrees (s : State) :
  (forall ci t, Part000.doCollision ci t s = None <-> (4 <= t)%nat) /\
  (forall ci p,
     Part000.doCollision ci 0 s = Some (processCollision ci p "left" s) /\
     Part000.doCollision ci 1 s = Some (processCollision ci p "right" s) /\
     Part000.doCollision ci 2 s = Some (processCollision ci p "up" s) /\
     Part000.doCollision ci 3 s = Some (processCollision ci p "down" s)) /\
  Part000.detectCollision s = Some (detectcollision s).
Proof.
  split; [| split].
  - intros ci t. unfold Part000.doCollision.
    destruct t as [| [| [| [| t]]]]; cbn;
      (split; [intro H; try discriminate H; lia | intro H; try lia]);
      reflexivity.
  - intros ci p. repeat apply conj; reflexivity.
  - unfold Part000.detectCollision, detectcollision,
      Part000.cornersIndexes, cornerIndexes.
    cbn [fold_left]. now rewrite !Part000_body_agrees.
Qed.

(** ** The square and the viewport *)

(** An affine function of a point of the square is between its least and
    its greatest value at the four corners. *)
Lemma affine_on_square (a b c l h x y : Q) :
  (- 0.5 <= x /\ x <= 0.5) -> (- 0.5 <= y /\ y <= 0.5) ->
  (forall u v, In (u, v) [(-0.5, -0.5); (0.5, -0.5); (0.5, 0.5); (-0.5, 0.5)]
               -> l <= u * a + v * b + c /\ u * a + v * b + c <= h) ->
  l <= x * a + y * b + c /\ x * a + y * b + c <= h.
Proof.
  intros [Hx1 Hx2] [Hy1 Hy2] H.
  destruct (H (-0.5) (-0.5) ltac:(cbn; auto)) as [A1 A2].
  destruct (H 0.5 (-0.5) ltac:(cbn; auto)) as [B1 B2].
  destruct (H 0.5 0.5 ltac:(cbn; auto)) as [C1 C2].
  destruct (H (-0.5) 0.5 ltac:(cbn; auto)) as [D1 D2].
  clear H.
  destruct (Qlt_le_dec a 0) as [Ha | Ha];
    destruct (Qlt_le_dec b 0) as [Hb | Hb]; split; nra.
Qed.

(** X18.  The four tracked corners stand for the whole square: when they
    are within the viewport under the model matrix, so is the image of every
    vertex of the buffer and of every point of the square
    [-0.5, 0.5] x [-0.5, 0.5]. *)
Theorem square_within_viewport (s : State) :
  (forall ci, In ci cornerIndexes ->
     let p := getTransformedPosition ci s in
     (- wsize / 2 <= fst p /\ fst p <= wsize / 2) /\
     (- wsize / 2 <= snd p /\ snd p <= wsize / 2)) ->
  (forall i,
     let p := getTransformedPosition i s in
     (- wsize / 2 <= fst p /\ fst p <= wsize / 2) /\
     (- wsize / 2 <= snd p /\ snd p <= wsize / 2)) /\
  (forall q : Q * Q,
     inSquare q ->
     let p := Cuon.multiplyVector4 (modelMatrix s)
                (Cuon.mkVector4 (fst q) (snd q) 0.0 1.0) in
     (- wsize / 2 <= Cuon.v0 p /\ Cuon.v0 p <= wsize / 2) /\
     (- wsize / 2 <= Cuon.v1 p /\ Cuon.v1 p <= wsize / 2)).
Proof.
  intro H.
  assert (Q4 : forall q : Q * Q,
             inSquare q ->
             let p := Cuon.multiplyVector4 (modelMatrix s)
                        (Cuon.mkVector4 (fst q) (snd q) 0.0 1.0) in
             (- wsize / 2 <= Cuon.v0 p /\ Cuon.v0 p <= wsize / 2) /\
             (- wsize / 2 <= Cuon.v1 p /\ Cuon.v1 p <= wsize / 2)).
  { intros [x y] [Hx Hy]. cbv zeta. cbn [fst snd] in *.
    assert (K : forall u v,
               In (u, v) [(-0.5, -0.5); (0.5, -0.5); (0.5, 0.5); (-0.5, 0.5)]
               -> exists ci, In ci cornerIndexes /\ getVertex ci = (u, v)).
    { intros u v Huv. cbn in Huv.
      destruct Huv as [E | [E | [E | [E | []]]]]; inversion E; subst;
        [exists 0%nat | exists 1%nat | exists 2%nat | exists 5%nat];
        (split; [cbn; auto | reflexivity]). }
    unfold Cuon.multiplyVector4. cbn [Cuon.v0 Cuon.v1 Cuon.v2 Cuon.v3].
    split.
    - assert (G : - wsize / 2 <=
                  x * Cuon.e0 (modelMatrix s) + y * Cuon.e4 (modelMatrix s) +
                  (0.0 * Cuon.e8 (modelMatrix s) +
                   1.0 * Cuon.e12 (modelMatrix s)) /\
                  x * Cuon.e0 (modelMatrix s) + y * Cuon.e4 (modelMatrix s) +
                  (0.0 * Cuon.e8 (modelMatrix s) +
                   1.0 * Cuon.e12 (modelMatrix s)) <= wsize / 2).
      { apply affine_on_square; [exact Hx | exact Hy |].
        intros u v Huv. destruct (K u v Huv) as [ci [Hci Ev]].
        destruct (H ci Hci) as [G _]. cbv zeta in G.
        unfold getTransformedPosition in G. rewrite Ev in G.
        unfold Cuon.multiplyVector4 in G.
        cbn [fst snd Cuon.v0 Cuon.v1 Cuon.v2 Cuon.v3] in G.
        rewrite <- Qplus_assoc in G. exact G. }
      rewrite <- Qplus_assoc. exact G.
    - assert (G : - wsize / 2 <=
                  x * Cuon.e1 (modelMatrix s) + y * Cuon.e5 (modelMatrix s) +
                  (0.0 * Cuon.e9 (modelMatrix s) +
                   1.0 * Cuon.e13 (modelMatrix s)) /\
                  x * Cuon.e1 (modelMatrix s) + y * Cuon.e5 (modelMatrix s) +
                  (0.0 * Cuon.e9 (modelMatrix s) +
                   1.0 * Cuon.e13 (modelMatrix s)) <= wsize / 2).
      { apply affine_on_square; [exact Hx | exact Hy |].
        intros u v Huv. destruct (K u v Huv) as [ci [Hci Ev]].
        destruct (H ci Hci) as [_ G]. cbv zeta in G.
        unfold getTransformedPosition in G. rewrite Ev in G.
        unfold Cuon.multiplyVector4 in G.
        cbn [fst snd Cuon.v0 Cuon.v1 Cuon.v2 Cuon.v3] in G.
        rewrite <- Qplus_assoc in G. exact G. }
      rewrite <- Qplus_assoc. exact G. }
  split; [| exact Q4].
  intro i. cbv zeta. unfold getTransformedPosition. cbn [fst snd].
  apply (Q4 (getVertex i)).
  destruct (getVertex_corner i) as [E | [E | [E | [E | []]]]];
    rewrite <- E; unfold inSquare; cbn [fst snd];
    repeat apply conj; lra.
Qed.

Lemma square_within_viewport_witness :
  let p := Cuon.multiplyVector4 (modelMatrix init)
             (Cuon.mkVector4 0.25 (- 0.125) 0.0 1.0) in
  (- wsize / 2 <= Cuon.v0 p /\ Cuon.v0 p <= wsize / 2) /\
  (- wsize / 2 <= Cuon.v1 p /\ Cuon.v1 p <= wsize / 2).
Proof.
  cbv zeta.
  refine (proj2 (square_within_viewport init _) (0.25, - 0.125) _).
  - intros ci Hci. cbn in Hci.
    destruct Hci as [E | [E | [E | [E | []]]]]; subst ci;
      vm_compute; repeat split; discriminate.
  - vm_compute. repeat split; discriminate.
Defined.
